(** * error-handler.js: the resource-protection layer and the consent banner

    A shallow embedding of [js/error-handler.js].  The script patches a few
    browser entry points (console sinks, [XMLHttpRequest], [fetch],
    [document.createElement]), installs no-op globals for tracking snippets
    and shows a cookie-consent banner.

    Conventions of the embedding:
    - a JavaScript string is a [string] of 8-bit character codes (the
      Latin-1 range of UTF-16 code units), on which [toLowerCase] acts
      character by character;
    - a JavaScript value is a [value]; objects the script never looks into
      are opaque references [VRef];
    - a function that may throw returns a [completion];
    - calls that leave the script (the native [fetch], the native
      [XMLHttpRequest] methods, the native console sinks) are nodes of a
      program tree [prog], so that "the transport is not invoked" is a
      statement about the tree;
    - the global object, an element's attributes and [localStorage] are
      finite maps that the operations pass along explicitly. *)

From Stdlib Require Import ZArith NArith Ascii String DecimalString.
From stdpp Require Import base option list strings gmap fin_maps.

Local Open Scope string_scope.

(** ** Strings *)

Module JsString.

(** [String.prototype.toLowerCase] on one character code below 256:
    A-Z and the Latin-1 capitals (except the multiplication sign) move
    up by 32, every other code is its own lower case. *)
Definition lower_char (c : ascii) : ascii :=
  let n := N_of_ascii c in
  if ((65 <=? n) && (n <=? 90))%N
     || ((192 <=? n) && (n <=? 222) && negb (n =? 215))%N
  then ascii_of_N (n + 32)
  else c.

Fixpoint map_chars (f : ascii -> ascii) (s : string) : string :=
  match s with
  | EmptyString => EmptyString
  | String c t => String (f c) (map_chars f t)
  end.

Definition toLowerCase (s : string) : string := map_chars lower_char s.

(** [s.replace(/\./g, '-')] *)
Definition dot_to_hyphen_char (c : ascii) : ascii :=
  if Ascii.eqb c "."%char then "-"%char else c.

Definition replace_dots (s : string) : string := map_chars dot_to_hyphen_char s.

(** [hay.startsWith(needle)] *)
Fixpoint starts_with (needle hay : string) : bool :=
  match needle, hay with
  | EmptyString, _ => true
  | String _ _, EmptyString => false
  | String a n', String b h' => Ascii.eqb a b && starts_with n' h'
  end.

(** [hay.includes(needle)]: some suffix of [hay] starts with [needle]. *)
Fixpoint includes (hay needle : string) : bool :=
  starts_with needle hay
  || match hay with
     | EmptyString => false
     | String _ h' => includes h' needle
     end.

(** [parts.join(sep)] on already stringified parts. *)
Fixpoint join (sep : string) (parts : list string) : string :=
  match parts with
  | [] => ""
  | [p] => p
  | p :: rest => p +:+ sep +:+ join sep rest
  end.

(** What the spec calls containment: [needle] occurs in [hay]. *)
Definition substring_of (needle hay : string) : Prop :=
  exists pre post, hay = pre +:+ needle +:+ post.

(** Containment up to letter case: some stretch of [hay] equals
    [needle] once both are lower-cased. *)
Definition ci_substring_of (needle hay : string) : Prop :=
  exists pre mid post,
    hay = pre +:+ mid +:+ post /\ toLowerCase mid = toLowerCase needle.

End JsString.

Import JsString.

(** ** Values and completions *)

(** The values the script handles.  [VRequest] is an instance of
    [Request] with its [url] field; [VError] an [Error] object with its
    [name] and [message]; [VRejected] a promise that is already rejected
    with the given reason.  Every other object (functions, arrays, DOM
    nodes, plain objects) is a reference. *)
Inductive value : Type :=
  | VUndefined
  | VNull
  | VBool (b : bool)
  | VNum (n : Z)
  | VStr (s : string)
  | VError (name message : string)
  | VRequest (url : string)
  | VRejected (reason : value)
  | VRef (r : positive).

#[global] Instance value_eq_dec : EqDecision value.
Proof. solve_decision. Defined.

(** The result of running a piece of code: a value, or a thrown one. *)
Inductive completion (A : Type) : Type :=
  | Normal (a : A)
  | Abrupt (thrown : value).
Arguments Normal {A} a.
Arguments Abrupt {A} thrown.

(** [new Error(message)] and the engine's [TypeError]. *)
Definition new_Error (message : string) : value := VError "Error" message.
Definition new_TypeError (message : string) : value := VError "TypeError" message.

(** [ToBoolean]: what [!v] and [v && ...] test. *)
Definition toBoolean (v : value) : bool :=
  match v with
  | VUndefined | VNull => false
  | VBool b => b
  | VNum n => negb (n =? 0)%Z
  | VStr s => negb (String.eqb s "")
  | VError _ _ | VRequest _ | VRejected _ | VRef _ => true
  end.

(** [typeof v === 'string'] *)
Definition is_string (v : value) : bool :=
  match v with VStr _ => true | _ => false end.

(** ** The global object *)

Module Window.

(** An own data property with its attributes. *)
Record property : Type := {
  p_value : value;
  p_writable : bool;
  p_enumerable : bool;
  p_configurable : bool
}.

(** A property descriptor as handed to [Object.defineProperty]; a field
    that is left out is [None]. *)
Record descriptor : Type := {
  d_value : option value;
  d_writable : option bool;
  d_enumerable : option bool;
  d_configurable : option bool
}.

(** The global object: its own data properties, and whether new ones
    may be added. *)
Record global_object : Type := {
  properties : gmap string property;
  extensible : bool
}.

(** [window[key]] *)
Definition get (w : global_object) (key : string) : value :=
  match properties w !! key with
  | Some p => p_value p
  | None => VUndefined
  end.

Definition with_property (w : global_object) (key : string) (p : property)
    : global_object :=
  {| properties := <[key := p]> (properties w); extensible := extensible w |}.

(** May [desc] be applied to the existing property [current]?  The
    checks of ValidateAndApplyPropertyDescriptor for data properties. *)
Definition redefinition_allowed (current : property) (desc : descriptor) : bool :=
  if p_configurable current then true
  else
    negb (bool_decide (d_configurable desc = Some true))
    && match d_enumerable desc with
       | Some e => Bool.eqb e (p_enumerable current)
       | None => true
       end
    && (if p_writable current then true
        else negb (bool_decide (d_writable desc = Some true))
             && match d_value desc with
                | Some v => bool_decide (v = p_value current)
                | None => true
                end).

(** The property after [desc] is applied: fields that are given
    replace the current ones. *)
Definition apply_descriptor (current : property) (desc : descriptor) : property :=
  {| p_value := default (p_value current) (d_value desc);
     p_writable := default (p_writable current) (d_writable desc);
     p_enumerable := default (p_enumerable current) (d_enumerable desc);
     p_configurable := default (p_configurable current) (d_configurable desc) |}.

(** A property created by [defineProperty]: absent fields are
    [undefined] and [false]. *)
Definition fresh_property (desc : descriptor) : property :=
  {| p_value := default VUndefined (d_value desc);
     p_writable := default false (d_writable desc);
     p_enumerable := default false (d_enumerable desc);
     p_configurable := default false (d_configurable desc) |}.

(** [Object.defineProperty(window, key, desc)] *)
Definition defineProperty (key : string) (desc : descriptor) (w : global_object)
    : completion unit * global_object :=
  match properties w !! key with
  | None =>
      if extensible w then (Normal (), with_property w key (fresh_property desc))
      else (Abrupt (new_TypeError "Cannot define property, object is not extensible"), w)
  | Some current =>
      if redefinition_allowed current desc
      then (Normal (), with_property w key (apply_descriptor current desc))
      else (Abrupt (new_TypeError "Cannot redefine property"), w)
  end.

(** [window[key] = v] in strict code. *)
Definition set (key : string) (v : value) (w : global_object)
    : completion unit * global_object :=
  match properties w !! key with
  | None =>
      if extensible w
      then (Normal (),
            with_property w key
              {| p_value := v; p_writable := true; p_enumerable := true;
                 p_configurable := true |})
      else (Abrupt (new_TypeError "Cannot add property, object is not extensible"), w)
  | Some current =>
      if p_writable current
      then (Normal (),
            with_property w key
              {| p_value := v; p_writable := true;
                 p_enumerable := p_enumerable current;
                 p_configurable := p_configurable current |})
      else (Abrupt (new_TypeError "Cannot assign to read only property"), w)
  end.

(** A global made by a plain assignment [window[key] = v]. *)
Definition assigned (v : value) : property :=
  {| p_value := v; p_writable := true; p_enumerable := true;
     p_configurable := true |}.

(** A global made by [Object.defineProperty(window, key, { value: v })]:
    neither writable nor configurable. *)
Definition locked (v : value) : property :=
  {| p_value := v; p_writable := false; p_enumerable := false;
     p_configurable := false |}.

(** An extensible global object with the given own properties. *)
Definition window_of (globals : list (string * property)) : global_object :=
  {| properties := list_to_map globals; extensible := true |}.


End Window.

(** [setupStubs] cannot install a stub under [key]: the value there is
    falsy, and the global object takes neither a definition nor an
    assignment for it (the key is absent and the object not extensible,
    or the property is neither configurable nor writable). *)
Definition refuses_stub (w : Window.global_object) (key : string) : bool :=
  negb (toBoolean (Window.get w key))
  && match Window.properties w !! key with
     | None => negb (Window.extensible w)
     | Some p => negb (Window.p_configurable p) && negb (Window.p_writable p)
     end.

(** ** Tracking protection: stubs and the domain classifier *)

Module trackingProtection.

Definition blockedDomains : list string :=
  [ (* Analytics and Tracking *)
    "googletagmanager.com"; "google-analytics.com"; "analytics.google.com";
    "analytics"; "segment.com"; "segment.io"; "mixpanel.com";
    (* Social Media Tracking *)
    "facebook.net"; "facebook.com"; "twitter.com"; "ads-twitter.com";
    "linkedin.com"; "tiktok.com"; "snap.com"; "pinterest.com";
    (* Advertising *)
    "doubleclick.net"; "adsystem.com"; "adnxs.com"; "advertising";
    "adroll.com"; "criteo.com"; "outbrain.com";
    (* Marketing Tools *)
    "firstpromoter.com"; "redditstatic.com"; "hsforms.com";
    "hs-scripts.com"; "hs-analytics"; "hubspot.com"; "marketo.com";
    "salesforce.com";
    (* Heat Mapping and Session Recording *)
    "hotjar.com"; "mouseflow.com"; "clarity.ms"; "luckyorange.com";
    "crazyegg.com";
    (* Generic Tracking Terms *)
    "tracking"; "telemetry"; "metrics"; "pixel"; "beacon"; "collect" ].

(** [trackingStubs], in the order of its keys.  Each function, object
    and array literal is one object, created when the script loads. *)
Definition trackingStubs : list (string * value) :=
  [ (* Google *)
    ("gtag", VRef 1); ("ga", VRef 2); ("google_tag_manager", VRef 3);
    ("GoogleAnalyticsObject", VBool true); ("__ga__", VRef 4);
    (* Facebook *)
    ("fbq", VRef 5); ("fb", VRef 6); ("fbevents", VRef 7);
    (* Other Social Media *)
    ("twq", VRef 8); ("ttq", VRef 9); ("lintrk", VRef 10); ("rdt", VRef 11);
    ("pintrk", VRef 12); ("snaptr", VRef 13);
    (* Marketing Tools *)
    ("hsq", VRef 14); ("hbspt", VRef 15);
    (* Analytics *)
    ("analytics", VRef 16); ("_satellite", VRef 17); ("dataLayer", VRef 18);
    (* Session Recording *)
    ("hj", VRef 19); ("clarity", VRef 20);
    (* Generic *)
    ("trackEvent", VRef 21); ("trackPageview", VRef 22);
    ("trackCustom", VRef 23) ].

(** [{ value, writable: false, configurable: false }] *)
Definition stub_descriptor (v : value) : Window.descriptor :=
  {| Window.d_value := Some v; Window.d_writable := Some false;
     Window.d_enumerable := None; Window.d_configurable := Some false |}.

(** The callback of [forEach] in [setupStubs], for one entry. *)
Definition setupStub (entry : string * value) (w : Window.global_object)
    : completion unit * Window.global_object :=
  let '(key, v) := entry in
  if negb (toBoolean (Window.get w key)) then
    match Window.defineProperty key (stub_descriptor v) w with
    | (Normal u, w') => (Normal u, w')
    | (Abrupt e, w') => Window.set key v w'
    end
  else (Normal (), w).

(** [entries.forEach(callback)]: the first callback that throws ends
    the loop. *)
Fixpoint forEach {S A : Type} (callback : A -> S -> completion unit * S)
    (entries : list A) (st : S) : completion unit * S :=
  match entries with
  | [] => (Normal (), st)
  | e :: rest =>
      match callback e st with
      | (Normal _, st') => forEach callback rest st'
      | (Abrupt err, st') => (Abrupt err, st')
      end
  end.

Definition setupStubs (w : Window.global_object)
    : completion unit * Window.global_object :=
  forEach setupStub trackingStubs w.

(** The callback given to [blockedDomains.some]. *)
Definition domain_matches (urlLower domain : string) : bool :=
  includes urlLower domain || includes urlLower (replace_dots domain).

(** [isDomainBlocked(url)].  A falsy argument is not blocked; a string
    is lower-cased and searched; any other truthy value has no
    [toLowerCase] method, so the call on it throws. *)
Definition isDomainBlocked (url : value) : completion bool :=
  if negb (toBoolean url) then Normal false
  else match url with
       | VStr s =>
           let urlLower := toLowerCase s in
           Normal (existsb (domain_matches urlLower) blockedDomains)
       | _ => Abrupt (new_TypeError "url.toLowerCase is not a function")
       end.

(** The spec's reading of the classifier: the string holds some entry of
    the list, or the entry with its dots turned into hyphens, whatever
    the letter case. *)
Definition holds_blocked_entry (s : string) : Prop :=
  exists domain,
    In domain blockedDomains /\
    (ci_substring_of domain s \/ ci_substring_of (replace_dots domain) s).

End trackingProtection.

Import trackingProtection.

(** ** Programs that call into the browser *)

Inductive console_level : Type := LevelLog | LevelError | LevelWarn | LevelDebug.

(** The native functions the script captures before it replaces them.
    [this] is the receiver the script passes on, [args] the argument
    list ([arguments], or the rest parameter). *)
Inductive host_call : Type :=
  | NativeFetch (this : value) (args : list value)
  | NativeXhrNew
  | NativeXhrOpen (this : value) (args : list value)
  | NativeXhrSend (this : value) (args : list value)
  | NativeConsole (level : console_level) (args : list value).

(** A program returns, throws, or calls a native function and goes on
    with its result. *)
Inductive prog (A : Type) : Type :=
  | Ret (a : A)
  | Throw (e : value)
  | Call (c : host_call) (k : value -> prog A).
Arguments Ret {A} a.
Arguments Throw {A} e.
Arguments Call {A} c k.

Fixpoint prog_bind {A B : Type} (f : A -> prog B) (p : prog A) : prog B :=
  match p with
  | Ret a => f a
  | Throw e => Throw e
  | Call c k => Call c (fun v => prog_bind f (k v))
  end.

#[global] Instance prog_mret : MRet prog := fun _ a => Ret a.
#[global] Instance prog_mbind : MBind prog := fun _ _ f p => prog_bind f p.

(** A computation of the script itself, run inside a program. *)
Definition lift {A : Type} (c : completion A) : prog A :=
  match c with
  | Normal a => Ret a
  | Abrupt e => Throw e
  end.

(** Delegation: [original.apply(this, arguments)], result returned. *)
Definition delegate (c : host_call) : prog value := Call c Ret.

(** Running a program against a browser: [host] answers every native
    call from the browser state [W] and may change it; a native call that
    throws ends the program, as nothing here catches it. *)
Fixpoint run {W A : Type} (host : host_call -> W -> completion value * W)
    (p : prog A) (w : W) : completion A * W :=
  match p with
  | Ret a => (Normal a, w)
  | Throw e => (Abrupt e, w)
  | Call c k =>
      match host c w with
      | (Normal v, w') => run host (k v) w'
      | (Abrupt e, w') => (Abrupt e, w')
      end
  end.

(** The native calls a program makes on the way, in order, when the
    browser answers as [host] does. *)
Fixpoint calls_made {W A : Type} (host : host_call -> W -> completion value * W)
    (p : prog A) (w : W) : list host_call :=
  match p with
  | Ret _ | Throw _ => []
  | Call c k =>
      c :: match host c w with
           | (Normal v, w') => calls_made host (k v) w'
           | (Abrupt _, _) => []
           end
  end.

(** [args[i]], [undefined] past the end. *)
Definition arg (i : nat) (args : list value) : value :=
  default VUndefined (args !! i).

(** ** Network request interceptor *)

Module networkInterceptor.

Definition blocked_error : value := new_Error "Request blocked".

(** [xhr.open = function(method, url) { ... }] *)
Definition xhr_open (this : value) (args : list value) : prog value :=
  let url := arg 1 args in
  blocked ← lift (isDomainBlocked url);
  if blocked : bool then Throw blocked_error
  else delegate (NativeXhrOpen this args).

(** The condition of [xhr.send]:
    [data && typeof data === 'string' && isDomainBlocked(data)]. *)
Definition send_condition (data : value) : completion bool :=
  if toBoolean data then
    if is_string data then isDomainBlocked data else Normal false
  else Normal false.

(** [xhr.send = function(data) { ... }] *)
Definition xhr_send (this : value) (args : list value) : prog value :=
  let data := arg 0 args in
  blocked ← lift (send_condition data);
  if blocked : bool then Throw blocked_error
  else delegate (NativeXhrSend this args).

(** What the replaced constructor hands out: the native object with its
    own [open] and [send]. *)
Record xhr_object : Type := {
  xhr_native : value;
  open : value -> list value -> prog value;
  send : value -> list value -> prog value
}.

(** [window.XMLHttpRequest = function() { ... return xhr; }] *)
Definition XMLHttpRequest : prog xhr_object :=
  Call NativeXhrNew (fun xhr =>
    Ret {| xhr_native := xhr; open := xhr_open; send := xhr_send |}).

(** [resource instanceof Request ? resource.url : resource] *)
Definition effective_url (resource : value) : value :=
  match resource with
  | VRequest url => VStr url
  | _ => resource
  end.

(** [window.fetch = function(resource, init) { ... }] *)
Definition fetch (this : value) (args : list value) : prog value :=
  let resource := arg 0 args in
  let url := effective_url resource in
  blocked ← lift (isDomainBlocked url);
  if blocked : bool then Ret (VRejected blocked_error)
  else delegate (NativeFetch this args).

End networkInterceptor.

(** A value classified as blocked, in the spec's words: a string that
    the classifier blocks. *)
Definition blocked_string (data : value) : Prop :=
  exists s, data = VStr s /\ isDomainBlocked (VStr s) = Normal true.

(** [p] can return [a]: some answers of the browser lead it there. *)
Inductive returns {A : Type} : prog A -> A -> Prop :=
  | returns_Ret a : returns (Ret a) a
  | returns_Call c k v a : returns (k v) a -> returns (Call c k) a.

(** ** Console management *)

(** How the browser renders an opaque object as a string (its
    [toString]): source text for a function, the joined elements for an
    array, [[object Object]] for a plain object. *)
Class ObjectToString : Type := object_toString : positive -> string.

Section Stringify.
Context {render : ObjectToString}.

Definition Z_toString (n : Z) : string := NilZero.string_of_int (Z.to_int n).

(** [Error.prototype.toString] *)
Definition Error_toString (name message : string) : string :=
  if String.eqb name "" then message
  else if String.eqb message "" then name
  else name +:+ ": " +:+ message.

(** [ToString] *)
Definition toString (v : value) : string :=
  match v with
  | VUndefined => "undefined"
  | VNull => "null"
  | VBool true => "true"
  | VBool false => "false"
  | VNum n => Z_toString n
  | VStr s => s
  | VError name message => Error_toString name message
  | VRequest _ => "[object Request]"
  | VRejected _ => "[object Promise]"
  | VRef r => object_toString r
  end.

(** How [Array.prototype.join] renders one element. *)
Definition join_element (v : value) : string :=
  match v with
  | VUndefined | VNull => ""
  | _ => toString v
  end.

(** [args.join(sep)] *)
Definition Array_join (sep : string) (args : list value) : string :=
  join sep (map join_element args).

End Stringify.

(** The rendering of a plain object, for examples. *)
Definition plain_object_toString : ObjectToString := fun _ => "[object Object]".

Record protection_config : Type := {
  enabled : bool;
  debugMode : bool;
  blockConsoleErrors : bool;
  blockTracking : bool;
  blockAds : bool;
  allowEssentialCookies : bool
}.

(** The frozen configuration of the script. *)
Definition protectionConfig : protection_config :=
  {| enabled := true; debugMode := false; blockConsoleErrors := true;
     blockTracking := true; blockAds := true; allowEssentialCookies := true |}.

Module consoleManager.

(** A console method, applied to its argument list. *)
Definition sink : Type := list value -> prog value.

Record console_object : Type := {
  log : sink;
  error : sink;
  warn : sink;
  debug : sink
}.

(** The console of the browser before the script touches it. *)
Definition native_console : console_object :=
  {| log := fun args => delegate (NativeConsole LevelLog args);
     error := fun args => delegate (NativeConsole LevelError args);
     warn := fun args => delegate (NativeConsole LevelWarn args);
     debug := fun args => delegate (NativeConsole LevelDebug args) |}.

(** The phrases [shouldBlock] looks for, in the order it tests them. *)
Definition noise_phrases : list string :=
  [ "err_blocked_by_client"; "failed to load"; "gtm"; "analytics";
    "tracking"; "pixel"; "error loading script" ].

(** A message the spec calls noise: it holds one of the phrases. *)
Definition noisy (message : string) : Prop :=
  exists phrase, In phrase noise_phrases /\ substring_of phrase message.

Section WithRender.
Context {render : ObjectToString}.

Definition shouldBlock (args : list value) : bool :=
  let message := toLowerCase (Array_join " " args) in
  includes message "err_blocked_by_client" ||
  includes message "failed to load" ||
  includes message "gtm" ||
  includes message "analytics" ||
  includes message "tracking" ||
  includes message "pixel" ||
  includes message "error loading script".

(** [(...args) => { if (!this.shouldBlock(args)) original.apply(console, args); }] *)
Definition filtered (original : sink) : sink := fun args =>
  if negb (shouldBlock args) then _ ← original args; Ret VUndefined
  else Ret VUndefined.

(** [consoleManager.init()], with [originalConsole] the methods saved
    when the script was loaded and [console] the object it patches. *)
Definition init (config : protection_config)
    (originalConsole console : console_object) : console_object :=
  let console1 :=
    if blockConsoleErrors config then
      {| log := log console;
         error := filtered (error originalConsole);
         warn := filtered (warn originalConsole);
         debug := debug console |}
    else console in
  {| log := log console1;
     error := error console1;
     warn := warn console1;
     debug := if debugMode config then debug originalConsole
              else fun _ => Ret VUndefined |}.

(** The console once the script has run: the saved methods are those
    of the console it finds. *)
Definition installed (console : console_object) : console_object :=
  init protectionConfig console console.

End WithRender.

End consoleManager.

(** ** The document *)

Module Dom.

(** An element: its local name, its attributes, the text of the content
    it was given, the [display] of its inline style, and whether the
    script blocker put its own [setAttribute] and [src] on it.
    Attribute and tag names are taken to be valid names. *)
Record element : Type := {
  localName : string;
  attributes : gmap string string;
  innerHTML : string;
  textContent : string;
  style_display : string;
  guarded : bool
}.

Definition with_attributes (el : element) (attrs : gmap string string) : element :=
  {| localName := localName el; attributes := attrs;
     innerHTML := innerHTML el; textContent := textContent el;
     style_display := style_display el; guarded := guarded el |}.

(** The native [document.createElement] of an HTML document. *)
Definition native_createElement (tagName : string) : element :=
  {| localName := toLowerCase tagName; attributes := ∅; innerHTML := "";
     textContent := ""; style_display := ""; guarded := false |}.

(** [el.getAttribute(name)] *)
Definition getAttribute (el : element) (name : string) : value :=
  match attributes el !! toLowerCase name with
  | Some s => VStr s
  | None => VNull
  end.

Section WithRender.
Context {render : ObjectToString}.

(** The native [Element.prototype.setAttribute]. *)
Definition native_setAttribute (name : string) (v : value) (el : element)
    : element :=
  with_attributes el (<[toLowerCase name := toString v]> (attributes el)).

End WithRender.

(** [el.id = v], [el.innerHTML = v], [el.textContent = v] and
    [el.style.display = v] for strings. *)
Definition set_id (v : string) (el : element) : element :=
  with_attributes el (<["id" := v]> (attributes el)).

Definition set_innerHTML (v : string) (el : element) : element :=
  {| localName := localName el; attributes := attributes el;
     innerHTML := v; textContent := textContent el;
     style_display := style_display el; guarded := guarded el |}.

Definition set_textContent (v : string) (el : element) : element :=
  {| localName := localName el; attributes := attributes el;
     innerHTML := innerHTML el; textContent := v;
     style_display := style_display el; guarded := guarded el |}.

Definition set_style_display (v : string) (el : element) : element :=
  {| localName := localName el; attributes := attributes el;
     innerHTML := innerHTML el; textContent := textContent el;
     style_display := v; guarded := guarded el |}.

(** The children of [document.head] and of [document.body], in order. *)
Record document : Type := {
  head : list element;
  body : list element
}.

Inductive node_ref : Type := InHead (i : nat) | InBody (i : nat).

Definition node (d : document) (r : node_ref) : option element :=
  match r with
  | InHead i => head d !! i
  | InBody i => body d !! i
  end.

Definition has_id (id : string) (el : element) : bool :=
  bool_decide (attributes el !! "id" = Some id).

Fixpoint find_index (f : element -> bool) (l : list element) : option nat :=
  match l with
  | [] => None
  | el :: rest => if f el then Some 0 else S <$> find_index f rest
  end.

(** [document.getElementById(id)]: the first element in tree order. *)
Definition getElementById (d : document) (id : string) : option node_ref :=
  match find_index (has_id id) (head d) with
  | Some i => Some (InHead i)
  | None => InBody <$> find_index (has_id id) (body d)
  end.

(** A change made through a reference to a node of the document. *)
Definition update_node (f : element -> element) (r : node_ref) (d : document)
    : document :=
  match r with
  | InHead i => {| head := alter f i (head d); body := body d |}
  | InBody i => {| head := head d; body := alter f i (body d) |}
  end.

Definition head_appendChild (el : element) (d : document) : document :=
  {| head := head d ++ [el]; body := body d |}.

Definition body_appendChild (el : element) (d : document) : document :=
  {| head := head d; body := body d ++ [el] |}.

End Dom.

(** ** Script injection blocker *)

Module scriptBlocker.
Import Dom.

Section WithRender.
Context {render : ObjectToString}.

(** The condition of the replaced [setAttribute]:
    [value && typeof value === 'string' &&
     (name === 'src' || name === 'data-src') && isDomainBlocked(value)]. *)
Definition drop_condition (name : string) (v : value) : completion bool :=
  if toBoolean v then
    if is_string v then
      if String.eqb name "src" || String.eqb name "data-src"
      then isDomainBlocked v
      else Normal false
    else Normal false
  else Normal false.

(** [element.setAttribute = function(name, value) { ... }] *)
Definition setAttribute (name : string) (v : value) (el : element)
    : completion element :=
  match drop_condition name v with
  | Normal true => Normal el
  | Normal false => Normal (native_setAttribute name v el)
  | Abrupt e => Abrupt e
  end.

(** The condition of the [src] setter:
    [value && !isDomainBlocked(value)]. *)
Definition forward_condition (v : value) : completion bool :=
  if toBoolean v then
    match isDomainBlocked v with
    | Normal b => Normal (negb b)
    | Abrupt e => Abrupt e
    end
  else Normal false.

(** [set(value) { ... }] of the [src] property. *)
Definition set_src (v : value) (el : element) : completion element :=
  match forward_condition v with
  | Normal true => setAttribute "src" v el
  | Normal false => Normal el
  | Abrupt e => Abrupt e
  end.

(** [get() { return element.getAttribute('src'); }] *)
Definition get_src (el : element) : value := getAttribute el "src".

End WithRender.

(** [document.createElement = function(tagName) { ... }] *)
Definition createElement (tagName : string) : element :=
  let element := native_createElement tagName in
  if String.eqb (toLowerCase tagName) "script" then
    {| localName := localName element; attributes := attributes element;
       innerHTML := innerHTML element; textContent := textContent element;
       style_display := style_display element; guarded := true |}
  else element.

End scriptBlocker.

(** What page code reaches when it uses an element: the element's own
    [setAttribute] and [src] when the script blocker installed them, the
    native ones otherwise. *)
Module Element.
Import Dom.

Section WithRender.
Context {render : ObjectToString}.

Definition setAttribute (el : element) (name : string) (v : value)
    : completion element :=
  if guarded el then scriptBlocker.setAttribute name v el
  else Normal (native_setAttribute name v el).

(** [el.src = v] *)
Definition set_src (el : element) (v : value) : completion element :=
  if guarded el then scriptBlocker.set_src v el
  else Normal (native_setAttribute "src" v el).

End WithRender.

End Element.

(** ** Consent management *)

Module Consent.
Import Dom.

(** A page: its document, and the [localStorage] of its origin, which
    outlives the page. *)
Record page : Type := {
  doc : document;
  localStorage : gmap string string
}.

(** [localStorage.getItem(key)] *)
Definition getItem (key : string) (pg : page) : value :=
  match localStorage pg !! key with
  | Some s => VStr s
  | None => VNull
  end.

(** [localStorage.setItem(key, v)] *)
Definition setItem (key v : string) (pg : page) : page :=
  {| doc := doc pg; localStorage := <[key := v]> (localStorage pg) |}.

Definition dq : string := String (ascii_of_nat 34) "".
Definition nl : string := String (ascii_of_nat 10) "".

(** The template literal given to [consentBanner.innerHTML]. *)
Definition banner_markup : string :=
  join nl
    [ "";
      "        <div class=" +:+ dq +:+ "consent-content" +:+ dq +:+ ">";
      "            <p>We use cookies and similar technologies to enhance your experience. Some content may not load if blocked.</p>";
      "            <button onclick=" +:+ dq +:+ "acceptAllCookies()" +:+ dq
        +:+ ">Accept All</button>";
      "            <button onclick=" +:+ dq +:+ "acceptEssentialOnly()" +:+ dq
        +:+ ">Essential Only</button>";
      "        </div>";
      "    " ].

(** The template literal given to [styles.textContent]. *)
Definition banner_styles : string :=
  join nl
    [ "";
      "        #consent-banner {";
      "            position: fixed;";
      "            bottom: 0;";
      "            left: 0;";
      "            right: 0;";
      "            background: #f8f9fa;";
      "            padding: 1rem;";
      "            box-shadow: 0 -2px 10px rgba(0,0,0,0.1);";
      "            z-index: 9999;";
      "        }";
      "        #consent-banner button {";
      "            margin: 0.5rem;";
      "            padding: 0.5rem 1rem;";
      "            border: none;";
      "            border-radius: 4px;";
      "            cursor: pointer;";
      "        }";
      "    " ].

(** The banner as [initConsentManagement] builds it. *)
Definition consentBanner : element :=
  set_innerHTML banner_markup
    (set_id "consent-banner" (scriptBlocker.createElement "div")).

Definition styles : element :=
  set_textContent banner_styles (scriptBlocker.createElement "style").

(** [initConsentManagement()] *)
Definition initConsentManagement (pg : page) : page :=
  {| doc := body_appendChild consentBanner (head_appendChild styles (doc pg));
     localStorage := localStorage pg |}.

(** The body shared by [acceptAllCookies] and [acceptEssentialOnly]:
    store the choice, then hide the element found under the banner's
    id; reading [style] of [null] throws. *)
Definition accept (choice : string) (pg : page) : completion unit * page :=
  let pg1 := setItem "cookieConsent" choice pg in
  match getElementById (doc pg1) "consent-banner" with
  | Some r =>
      (Normal (),
       {| doc := update_node (set_style_display "none") r (doc pg1);
          localStorage := localStorage pg1 |})
  | None =>
      (Abrupt (new_TypeError "Cannot read properties of null (reading 'style')"),
       pg1)
  end.

Definition acceptAllCookies : page -> completion unit * page := accept "all".
Definition acceptEssentialOnly : page -> completion unit * page := accept "essential".

(** The [DOMContentLoaded] listener. *)
Definition onDOMContentLoaded (pg : page) : page :=
  if negb (toBoolean (getItem "cookieConsent" pg)) then initConsentManagement pg
  else pg.

(** A later load of the site: a new document, the same storage. *)
Definition reload (d : document) (pg : page) : page :=
  {| doc := d; localStorage := localStorage pg |}.

(** A first visit: an empty document and nothing stored. *)
Definition first_visit : page :=
  {| doc := {| head := []; body := [] |}; localStorage := ∅ |}.

End Consent.

(** ** Installing the network interceptor *)

(** [networkInterceptor.init] wraps whatever [window.fetch] and
    [window.XMLHttpRequest] are when it runs. *)
Module networkInstall.
Import networkInterceptor.

(** A function called with a receiver and an argument list. *)
Definition method : Type := value -> list value -> prog value.

(** The request entry points of [window]. *)
Record request_api : Type := {
  api_fetch : method;
  api_XMLHttpRequest : prog xhr_object
}.

(** The entry points of the browser. *)
Definition native_api : request_api :=
  {| api_fetch := fun this args => delegate (NativeFetch this args);
     api_XMLHttpRequest :=
       Call NativeXhrNew (fun xhr =>
         Ret {| xhr_native := xhr;
                open := fun this args => delegate (NativeXhrOpen this args);
                send := fun this args => delegate (NativeXhrSend this args) |}) |}.

(** [xhr.open = function(method, url) { ... originalOpen.apply(this, arguments) }] *)
Definition wrap_open (originalOpen : method) : method := fun this args =>
  let url := arg 1 args in
  blocked ← lift (isDomainBlocked url);
  if blocked : bool then Throw blocked_error
  else originalOpen this args.

(** [xhr.send = function(data) { ... originalSend.apply(this, arguments) }] *)
Definition wrap_send (originalSend : method) : method := fun this args =>
  let data := arg 0 args in
  blocked ← lift (send_condition data);
  if blocked : bool then Throw blocked_error
  else originalSend this args.

(** [window.fetch = function(resource, init) { ... originalFetch.apply(this, arguments) }] *)
Definition wrap_fetch (originalFetch : method) : method := fun this args =>
  let resource := arg 0 args in
  let url := effective_url resource in
  blocked ← lift (isDomainBlocked url);
  if blocked : bool then Ret (VRejected blocked_error)
  else originalFetch this args.

(** [window.XMLHttpRequest = function() { const xhr = new originalXHR(); ... }] *)
Definition wrap_XMLHttpRequest (originalXHR : prog xhr_object) : prog xhr_object :=
  xhr ← originalXHR;
  Ret {| xhr_native := xhr_native xhr;
         open := wrap_open (open xhr);
         send := wrap_send (send xhr) |}.

(** [networkInterceptor.init()] *)
Definition init (api : request_api) : request_api :=
  {| api_fetch := wrap_fetch (api_fetch api);
     api_XMLHttpRequest := wrap_XMLHttpRequest (api_XMLHttpRequest api) |}.

End networkInstall.

(** ** Sequences of operations on a script element *)

Module ScriptOps.
Import Dom.

(** What page code does to the source of a script element, with string
    values: [el.src = s] and [el.setAttribute(name, s)]. *)
Inductive script_op : Type :=
  | SetSrc (s : string)
  | SetAttr (name s : string).

(** The attribute name is already in lower case, as [src] is. *)
Definition lower_name (op : script_op) : Prop :=
  match op with
  | SetSrc _ => True
  | SetAttr name _ => toLowerCase name = name
  end.

(** Neither [src] nor [data-src] holds a blocked string. *)
Definition sources_clean (el : element) : Prop :=
  forall name s,
    name = "src" \/ name = "data-src" ->
    attributes el !! name = Some s ->
    isDomainBlocked (VStr s) <> Normal true.

Section WithRender.
Context {render : ObjectToString}.

Definition apply_op (el : element) (op : script_op) : completion element :=
  match op with
  | SetSrc s => Element.set_src el (VStr s)
  | SetAttr name s => Element.setAttribute el name (VStr s)
  end.

Fixpoint apply_ops (el : element) (ops : list script_op) : completion element :=
  match ops with
  | [] => Normal el
  | op :: rest =>
      match apply_op el op with
      | Normal el' => apply_ops el' rest
      | Abrupt e => Abrupt e
      end
  end.

End WithRender.

End ScriptOps.

(** ** Resource error listener *)

Module errorSuppressor.

(** An [error] event as the listener reads it: [tagName], [src] and
    [href] of its target ([undefined] where the target has none), and
    whether its default action was prevented. *)
Record error_event : Type := {
  target_tagName : value;
  target_src : value;
  target_href : value;
  defaultPrevented : bool
}.

(** [e.preventDefault()] *)
Definition preventDefault (e : error_event) : error_event :=
  {| target_tagName := target_tagName e; target_src := target_src e;
     target_href := target_href e; defaultPrevented := true |}.

(** [a || b] *)
Definition or_else (a b : value) : value := if toBoolean a then a else b.

(** [url && trackingProtection.isDomainBlocked(url)] *)
Definition url_condition (url : value) : completion bool :=
  if toBoolean url then isDomainBlocked url else Normal false.

(** The listener [init] adds for [error] events; [console_debug] is
    [console.debug] at the time of the event. *)
Definition onError (config : protection_config)
    (console_debug : consoleManager.sink) (e : error_event) : prog error_event :=
  if toBoolean (target_tagName e) then
    let url := or_else (target_src e) (target_href e) in
    blocked ← lift (url_condition url);
    if blocked : bool then
      let e' := preventDefault e in
      if debugMode config
      then _ ← console_debug [VStr "Blocked resource:"; url]; Ret e'
      else Ret e'
    else Ret e
  else Ret e.

End errorSuppressor.

(** ** Starting the protection *)

Module protection.

(** A listener for [error] events, given the console of the time. *)
Definition error_listener : Type :=
  consoleManager.console_object -> errorSuppressor.error_event ->
  prog errorSuppressor.error_event.

(** The parts of the page the script replaces or adds to. *)
Record browser : Type := {
  console : consoleManager.console_object;
  window : Window.global_object;
  requests : networkInstall.request_api;
  createElement : string -> Dom.element;
  capturing_error_listeners : list error_listener;
  console_cleared : bool
}.

(** The browser before the script runs. *)
Definition native_browser (w : Window.global_object) : browser :=
  {| console := consoleManager.native_console;
     window := w;
     requests := networkInstall.native_api;
     createElement := Dom.native_createElement;
     capturing_error_listeners := [];
     console_cleared := false |}.

(** [scriptBlocker.init()]: the replaced [document.createElement], over
    whatever [createElement] is when it runs. *)
Definition wrap_createElement (originalCreateElement : string -> Dom.element)
    (tagName : string) : Dom.element :=
  let element := originalCreateElement tagName in
  if String.eqb (toLowerCase tagName) "script" then
    {| Dom.localName := Dom.localName element;
       Dom.attributes := Dom.attributes element;
       Dom.innerHTML := Dom.innerHTML element;
       Dom.textContent := Dom.textContent element;
       Dom.style_display := Dom.style_display element;
       Dom.guarded := true |}
  else element.

Section WithRender.
Context {render : ObjectToString}.

(** [init()], run when the script loads.  A throw of [setupStubs] ends
    it, which the completion in the result records together with the
    browser as it is then.  The two debug messages go to [console.debug]
    as [consoleManager.init] left it. *)
Definition init (config : protection_config) (b : browser)
    : prog (completion unit * browser) :=
  let console1 := consoleManager.init config (console b) (console b) in
  match setupStubs (window b) with
  | (Abrupt e, w') =>
      Ret (Abrupt e,
           {| console := console1; window := w'; requests := requests b;
              createElement := createElement b;
              capturing_error_listeners := capturing_error_listeners b;
              console_cleared := console_cleared b |})
  | (Normal _, w') =>
      let listener : error_listener := fun c e =>
        errorSuppressor.onError config (consoleManager.debug c) e in
      let b' :=
        {| console := console1; window := w';
           requests := networkInstall.init (requests b);
           createElement := wrap_createElement (createElement b);
           capturing_error_listeners := capturing_error_listeners b ++ [listener];
           console_cleared := true |} in
      if debugMode config
      then _ ← consoleManager.debug console1
                  [VStr "Enhanced resource protection active"];
           Ret (Normal (), b')
      else Ret (Normal (), b')
  end.

End WithRender.

End protection.

(** * Properties *)

(** ** Strings *)

Section StringFacts.

Lemma append_nil (s : string) : "" +:+ s = s.
Proof. reflexivity. Qed.

Lemma append_cons (c : ascii) (a b : string) :
  String c a +:+ b = String c (a +:+ b).
Proof. reflexivity. Qed.

Lemma starts_with_spec (needle hay : string) :
  starts_with needle hay = true <-> exists post, hay = needle +:+ post.
Proof.
  revert hay. induction needle as [|a needle IH]; intros hay; simpl.
  - split; [intros _; now exists hay | reflexivity].
  - destruct hay as [|b hay].
    + split; [discriminate | intros [post H]; rewrite append_cons in H; discriminate].
    + rewrite andb_true_iff, Ascii.eqb_eq, IH. split.
      * intros [-> [post ->]]. now exists post.
      * intros [post H]. rewrite append_cons in H. injection H as -> ->.
        split; [reflexivity | now exists post].
Qed.

Lemma includes_spec (hay needle : string) :
  includes hay needle = true <-> substring_of needle hay.
Proof.
  unfold substring_of. induction hay as [|c hay IH].
  - cbn [includes]. rewrite orb_false_r, starts_with_spec. split.
    + intros [post H]. now exists "", post.
    + intros [pre [post H]]. destruct pre as [|x pre].
      * now exists post.
      * rewrite append_cons in H. discriminate.
  - cbn [includes]. rewrite orb_true_iff, starts_with_spec, IH. split.
    + intros [[post H] | [pre [post H]]].
      * now exists "", post.
      * exists (String c pre), post. rewrite append_cons. now rewrite H.
    + intros [pre [post H]]. destruct pre as [|x pre].
      * left. now exists post.
      * right. rewrite append_cons in H. injection H as _ H. now exists pre, post.
Qed.

Lemma map_chars_app (f : ascii -> ascii) (a b : string) :
  map_chars f (a +:+ b) = map_chars f a +:+ map_chars f b.
Proof.
  induction a as [|x a IH]; [reflexivity |].
  rewrite append_cons. simpl. now rewrite IH, append_cons.
Qed.

(** A mapped string splits where its image splits. *)
Lemma map_chars_split (f : ascii -> ascii) (s x y : string) :
  map_chars f s = x +:+ y ->
  exists s1 s2, s = s1 +:+ s2 /\ map_chars f s1 = x /\ map_chars f s2 = y.
Proof.
  revert s. induction x as [|c x IH]; intros s H.
  - now exists "", s.
  - destruct s as [|d s]; rewrite append_cons in H; [discriminate |].
    simpl in H. injection H as Hc H.
    destruct (IH s H) as [s1 [s2 [-> [H1 H2]]]].
    exists (String d s1), s2. simpl. now rewrite Hc, H1.
Qed.

Lemma lower_char_idem (c : ascii) : lower_char (lower_char c) = lower_char c.
Proof. destruct c as [[] [] [] [] [] [] [] []]; reflexivity. Qed.

Lemma toLowerCase_idem (s : string) : toLowerCase (toLowerCase s) = toLowerCase s.
Proof.
  unfold toLowerCase. induction s as [|c s IH]; simpl; [reflexivity |].
  now rewrite lower_char_idem, IH.
Qed.

(** Searching the lower-cased haystack for a lower-case needle is
    containment up to letter case. *)
Lemma includes_toLowerCase (hay needle : string) :
  toLowerCase needle = needle ->
  includes (toLowerCase hay) needle = true <-> ci_substring_of needle hay.
Proof.
  intros Hlow. rewrite includes_spec.
  unfold substring_of, ci_substring_of. rewrite Hlow. unfold toLowerCase.
  split.
  - intros [pre [post H]].
    destruct (map_chars_split _ _ _ _ H) as [s1 [s23 [-> [H1 H23]]]].
    destruct (map_chars_split _ _ _ _ H23) as [s2 [s3 [-> [H2 H3]]]].
    now exists s1, s2, s3.
  - intros [pre [mid [post [-> H]]]].
    exists (map_chars lower_char pre), (map_chars lower_char post).
    now rewrite !map_chars_app, H.
Qed.

End StringFacts.

(** ** The domain classifier *)

Section Classifier.

Lemma blockedDomains_lower :
  Forall (fun d => toLowerCase d = d /\ toLowerCase (replace_dots d) = replace_dots d)
         blockedDomains.
Proof. unfold blockedDomains. repeat constructor. Qed.

Lemma domain_matches_spec (s domain : string) :
  In domain blockedDomains ->
  domain_matches (toLowerCase s) domain = true <->
  ci_substring_of domain s \/ ci_substring_of (replace_dots domain) s.
Proof.
  intros Hin. pose proof blockedDomains_lower as Hall.
  rewrite Forall_forall in Hall.
  destruct (Hall domain) as [H1 H2]; [now apply list_elem_of_In |].
  unfold domain_matches. rewrite orb_true_iff.
  now rewrite (includes_toLowerCase s domain H1),
              (includes_toLowerCase s (replace_dots domain) H2).
Qed.

Lemma some_blockedDomains_spec (s : string) :
  existsb (domain_matches (toLowerCase s)) blockedDomains = true <->
  holds_blocked_entry s.
Proof.
  unfold holds_blocked_entry. rewrite existsb_exists. split.
  - intros [d [Hin H]]. exists d. split; [exact Hin |].
    now apply domain_matches_spec.
  - intros [d [Hin H]]. exists d. split; [exact Hin |].
    now apply domain_matches_spec.
Qed.

(** On a string the classifier never throws. *)
Lemma isDomainBlocked_string (s : string) :
  isDomainBlocked (VStr s)
  = Normal (existsb (domain_matches (toLowerCase s)) blockedDomains).
Proof.
  unfold isDomainBlocked. destruct s as [|c s]; reflexivity.
Qed.

Lemma empty_holds_no_entry : ~ holds_blocked_entry "".
Proof.
  rewrite <- some_blockedDomains_spec. vm_compute. discriminate.
Qed.

End Classifier.

(** C1. The classifier is a total boolean function on a string or
    [null]: on every string it returns a boolean, which is [true] exactly
    when the string holds an entry of the block list, or the entry with
    dots turned into hyphens, as a substring up to letter case; on [null]
    and on the empty string it returns [false]. *)
Theorem isDomainBlocked_total_and_exact :
  (forall s : string,
     exists b : bool,
       isDomainBlocked (VStr s) = Normal b /\
       (b = true <-> holds_blocked_entry s)) /\
  isDomainBlocked VNull = Normal false /\
  isDomainBlocked (VStr "") = Normal false.
Proof.
  split; [| split; reflexivity].
  intros s. exists (existsb (domain_matches (toLowerCase s)) blockedDomains).
  split; [apply isDomainBlocked_string | apply some_blockedDomains_spec].
Qed.

Example isDomainBlocked_ga :
  isDomainBlocked (VStr "https://www.google-analytics.com/collect") = Normal true.
Proof. reflexivity. Qed.

Example isDomainBlocked_app :
  isDomainBlocked (VStr "https://example.com/app.js") = Normal false.
Proof. reflexivity. Qed.

(** The hyphenated form of [segment.io], in capitals. *)
Example isDomainBlocked_hyphenated :
  isDomainBlocked (VStr "https://Segment-IO.cdn.example/x.js") = Normal true.
Proof. reflexivity. Qed.

Example isDomainBlocked_undefined : isDomainBlocked VUndefined = Normal false.
Proof. reflexivity. Qed.

(** ** Programs *)

Section Programs.
Context {W : Type} (host : host_call -> W -> completion value * W).

(** Delegation makes exactly one native call and hands back whatever
    the browser answers, a thrown value included. *)
Lemma run_delegate (c : host_call) (w : W) :
  run host (delegate c) w = host c w.
Proof.
  unfold delegate. simpl. destruct (host c w) as [[v|e] w']; reflexivity.
Qed.

Lemma calls_made_delegate (c : host_call) (w : W) :
  calls_made host (delegate c) w = [c].
Proof.
  unfold delegate. simpl. destruct (host c w) as [[v|e] w']; reflexivity.
Qed.

(** The native call is made first, and its result thrown away. *)
Lemma calls_made_discard (c : host_call) (w : W) :
  calls_made host (_ ← delegate c; Ret VUndefined) w = [c].
Proof.
  unfold delegate. simpl. destruct (host c w) as [[v|e] w']; reflexivity.
Qed.

End Programs.

Lemma lift_bind_Normal {A B : Type} (c : completion A) (a : A) (f : A -> prog B) :
  c = Normal a -> (x ← lift c; f x) = f a.
Proof. intros ->. reflexivity. Qed.

(** ** The network interceptor *)

Section Network.
Import networkInterceptor.

Lemma effective_url_string (resource : value) (url : string) :
  resource = VStr url \/ resource = VRequest url ->
  effective_url resource = VStr url.
Proof. intros [-> | ->]; reflexivity. Qed.

Lemma fetch_classified (this : value) (args : list value) (blocked : bool) :
  isDomainBlocked (effective_url (arg 0 args)) = Normal blocked ->
  fetch this args
  = if blocked then Ret (VRejected blocked_error)
    else delegate (NativeFetch this args).
Proof. intros H. unfold fetch. cbv zeta. now rewrite (lift_bind_Normal _ _ _ H). Qed.

Lemma xhr_open_classified (this : value) (args : list value) (blocked : bool) :
  isDomainBlocked (arg 1 args) = Normal blocked ->
  xhr_open this args
  = if blocked then Throw blocked_error
    else delegate (NativeXhrOpen this args).
Proof. intros H. unfold xhr_open. cbv zeta. now rewrite (lift_bind_Normal _ _ _ H). Qed.

Lemma xhr_send_classified (this : value) (args : list value) (blocked : bool) :
  send_condition (arg 0 args) = Normal blocked ->
  xhr_send this args
  = if blocked then Throw blocked_error
    else delegate (NativeXhrSend this args).
Proof. intros H. unfold xhr_send. cbv zeta. now rewrite (lift_bind_Normal _ _ _ H). Qed.

(** The objects the replaced constructor hands out carry the two
    wrappers, whatever native object the browser made. *)
Lemma XMLHttpRequest_returns (x : xhr_object) :
  returns XMLHttpRequest x -> open x = xhr_open /\ send x = xhr_send.
Proof.
  unfold XMLHttpRequest. intros H.
  inversion H as [| c k v a Hk]; subst.
  inversion Hk; subst. split; reflexivity.
Qed.

(** The test of [send] is true exactly for a string payload that the
    classifier blocks. *)
Lemma send_condition_spec (data : value) :
  exists b : bool,
    send_condition data = Normal b /\
    (b = true <-> exists s, data = VStr s /\ isDomainBlocked (VStr s) = Normal true).
Proof.
  destruct data as [| |b|n|s|nm msg|u|r|r]; unfold send_condition; simpl;
    try (exists false; split; [now destruct_all bool; try destruct (negb _) |];
         split; [discriminate | intros [s [Hs _]]; discriminate]).
  destruct (negb (String.eqb s "")) eqn:Hne.
  - rewrite isDomainBlocked_string.
    eexists; split; [reflexivity |]. split.
    + intros Hb. exists s. split; [reflexivity |].
      now rewrite isDomainBlocked_string, Hb.
    + intros [s' [Hs Hb]]. injection Hs as <-.
      rewrite isDomainBlocked_string in Hb. now injection Hb.
  - exists false. split; [reflexivity |]. split; [discriminate |].
    intros [s' [Hs Hb]]. injection Hs as <-.
    apply negb_false_iff, String.eqb_eq in Hne. subst s.
    discriminate Hb.
Qed.

End Network.

(** C2. A call of the replaced [fetch] whose effective URL (the string
    argument itself, or the [url] of a [Request]) is classified as
    blocked returns a promise already rejected with an [Error] whose
    message is "Request blocked", and makes no native call; any other
    call is handed to the native [fetch] with the receiver and the whole
    argument list as they came, and its result is the result. *)
Theorem fetch_rejects_blocked_and_delegates_rest
    (this : value) (args : list value) (url : string) :
  arg 0 args = VStr url \/ arg 0 args = VRequest url ->
  exists blocked : bool,
    isDomainBlocked (VStr url) = Normal blocked /\
    networkInterceptor.fetch this args
    = (if blocked then Ret (VRejected (VError "Error" "Request blocked"))
       else Call (NativeFetch this args) Ret) /\
    forall (W : Type) (host : host_call -> W -> completion value * W) (w : W),
      calls_made host (networkInterceptor.fetch this args) w
      = (if blocked then [] else [NativeFetch this args]) /\
      run host (networkInterceptor.fetch this args) w
      = (if blocked then (Normal (VRejected (VError "Error" "Request blocked")), w)
         else host (NativeFetch this args) w).
Proof.
  intros Hres. apply effective_url_string in Hres.
  pose proof (isDomainBlocked_string url) as Hb.
  eexists. split; [exact Hb |].
  rewrite <- Hres in Hb.
  rewrite (fetch_classified this args _ Hb).
  destruct (existsb _ _).
  - split; [reflexivity |]. intros W host w. split; reflexivity.
  - split; [reflexivity |]. intros W host w.
    split; [apply calls_made_delegate | apply run_delegate].
Qed.

Lemma fetch_rejects_blocked_and_delegates_rest_witness :
  exists blocked : bool,
    isDomainBlocked (VStr "https://googletagmanager.com/gtm.js") = Normal blocked /\
    networkInterceptor.fetch VUndefined
      [VStr "https://googletagmanager.com/gtm.js"]
    = (if blocked then Ret (VRejected (VError "Error" "Request blocked"))
       else Call (NativeFetch VUndefined
                    [VStr "https://googletagmanager.com/gtm.js"]) Ret) /\
    forall (W : Type) (host : host_call -> W -> completion value * W) (w : W),
      calls_made host
        (networkInterceptor.fetch VUndefined
           [VStr "https://googletagmanager.com/gtm.js"]) w
      = (if blocked then []
         else [NativeFetch VUndefined [VStr "https://googletagmanager.com/gtm.js"]]) /\
      run host
        (networkInterceptor.fetch VUndefined
           [VStr "https://googletagmanager.com/gtm.js"]) w
      = (if blocked then (Normal (VRejected (VError "Error" "Request blocked")), w)
         else host (NativeFetch VUndefined
                      [VStr "https://googletagmanager.com/gtm.js"]) w).
Proof.
  apply (fetch_rejects_blocked_and_delegates_rest VUndefined
           [VStr "https://googletagmanager.com/gtm.js"]
           "https://googletagmanager.com/gtm.js").
  left. reflexivity.
Defined.

Example fetch_gtm :
  networkInterceptor.fetch VUndefined [VStr "https://googletagmanager.com/gtm.js"]
  = Ret (VRejected (VError "Error" "Request blocked")).
Proof. reflexivity. Qed.

Example fetch_data_json :
  networkInterceptor.fetch VUndefined [VStr "https://example.com/data.json"; VRef 7]
  = Call (NativeFetch VUndefined [VStr "https://example.com/data.json"; VRef 7]) Ret.
Proof. reflexivity. Qed.

Example fetch_Request_object :
  networkInterceptor.fetch VUndefined [VRequest "https://connect.facebook.net/fbevents.js"]
  = Ret (VRejected (VError "Error" "Request blocked")).
Proof. reflexivity. Qed.

(** A [URL] object as the resource is neither a string nor a [Request]:
    the classifier throws, and so does the call. *)
Example fetch_url_object :
  networkInterceptor.fetch VUndefined [VRef 55]
  = Throw (VError "TypeError" "url.toLowerCase is not a function").
Proof. reflexivity. Qed.

(** C3. On every object the replaced constructor hands out, [open] with
    a string URL throws an [Error] with message "Request blocked" if and
    only if the classifier blocks the URL; for a URL it does not block,
    [open] throws nothing of its own and is the native [open] applied to
    the same receiver and arguments. *)
Theorem xhr_open_throws_iff_blocked
    (x : networkInterceptor.xhr_object) (this method : value) (url : string)
    (rest : list value) :
  returns networkInterceptor.XMLHttpRequest x ->
  let args := method :: VStr url :: rest in
  (networkInterceptor.open x this args = Throw (VError "Error" "Request blocked")
   <-> isDomainBlocked (VStr url) = Normal true) /\
  (isDomainBlocked (VStr url) = Normal false ->
   networkInterceptor.open x this args = Call (NativeXhrOpen this args) Ret /\
   forall (W : Type) (host : host_call -> W -> completion value * W) (w : W),
     run host (networkInterceptor.open x this args) w
     = host (NativeXhrOpen this args) w) /\
  (isDomainBlocked (VStr url) = Normal true \/
   isDomainBlocked (VStr url) = Normal false).
Proof.
  intros Hx args. apply XMLHttpRequest_returns in Hx as [-> _].
  pose proof (isDomainBlocked_string url) as Hb.
  assert (Hopen := xhr_open_classified this args _ Hb).
  destruct (existsb _ _).
  - rewrite Hopen. split; [| split].
    + split; [intros _; exact Hb | reflexivity].
    + rewrite Hb. discriminate.
    + left. exact Hb.
  - rewrite Hopen. split; [| split].
    + split; [discriminate | rewrite Hb; discriminate].
    + intros _. split; [reflexivity |]. intros W host w. apply run_delegate.
    + right. exact Hb.
Qed.

Lemma xhr_open_throws_iff_blocked_witness :
  let x := {| networkInterceptor.xhr_native := VRef 100;
              networkInterceptor.open := networkInterceptor.xhr_open;
              networkInterceptor.send := networkInterceptor.xhr_send |} in
  let args := [VStr "GET"; VStr "https://www.google-analytics.com/collect"; VBool true] in
  (networkInterceptor.open x (VRef 100) args = Throw (VError "Error" "Request blocked")
   <-> isDomainBlocked (VStr "https://www.google-analytics.com/collect") = Normal true) /\
  (isDomainBlocked (VStr "https://www.google-analytics.com/collect") = Normal false ->
   networkInterceptor.open x (VRef 100) args = Call (NativeXhrOpen (VRef 100) args) Ret /\
   forall (W : Type) (host : host_call -> W -> completion value * W) (w : W),
     run host (networkInterceptor.open x (VRef 100) args) w
     = host (NativeXhrOpen (VRef 100) args) w) /\
  (isDomainBlocked (VStr "https://www.google-analytics.com/collect") = Normal true \/
   isDomainBlocked (VStr "https://www.google-analytics.com/collect") = Normal false).
Proof.
  apply (xhr_open_throws_iff_blocked _ (VRef 100) (VStr "GET")
           "https://www.google-analytics.com/collect" [VBool true]).
  unfold networkInterceptor.XMLHttpRequest.
  apply (returns_Call NativeXhrNew _ (VRef 100)). apply returns_Ret.
Defined.

(** C4. On every object the replaced constructor hands out, [send]
    throws an [Error] with message "Request blocked", before any native
    call, when the payload is a string that the classifier blocks; for
    every other payload (not a string, or a string that is not blocked)
    it is the native [send] applied to the same receiver and arguments. *)
Theorem xhr_send_throws_on_blocked_string
    (x : networkInterceptor.xhr_object) (this : value) (args : list value) :
  returns networkInterceptor.XMLHttpRequest x ->
  (blocked_string (arg 0 args) ->
   networkInterceptor.send x this args = Throw (VError "Error" "Request blocked") /\
   forall (W : Type) (host : host_call -> W -> completion value * W) (w : W),
     calls_made host (networkInterceptor.send x this args) w = []) /\
  (~ blocked_string (arg 0 args) ->
   networkInterceptor.send x this args = Call (NativeXhrSend this args) Ret /\
   forall (W : Type) (host : host_call -> W -> completion value * W) (w : W),
     run host (networkInterceptor.send x this args) w
     = host (NativeXhrSend this args) w).
Proof.
  intros Hx. apply XMLHttpRequest_returns in Hx as [_ ->].
  destruct (send_condition_spec (arg 0 args)) as [b [Hb Hiff]].
  rewrite (xhr_send_classified this args b Hb).
  fold (blocked_string (arg 0 args)) in Hiff.
  split; intros H.
  - apply Hiff in H. subst b. split; [reflexivity |]. intros W host w. reflexivity.
  - destruct b.
    + exfalso. apply H, Hiff. reflexivity.
    + split; [reflexivity |]. intros W host w. apply run_delegate.
Qed.

Lemma xhr_send_throws_on_blocked_string_witness :
  let x := {| networkInterceptor.xhr_native := VRef 100;
              networkInterceptor.open := networkInterceptor.xhr_open;
              networkInterceptor.send := networkInterceptor.xhr_send |} in
  let args := [VStr "https://bat.hotjar.com/api?x=1"] in
  (blocked_string (arg 0 args) ->
   networkInterceptor.send x (VRef 100) args = Throw (VError "Error" "Request blocked") /\
   forall (W : Type) (host : host_call -> W -> completion value * W) (w : W),
     calls_made host (networkInterceptor.send x (VRef 100) args) w = []) /\
  (~ blocked_string (arg 0 args) ->
   networkInterceptor.send x (VRef 100) args = Call (NativeXhrSend (VRef 100) args) Ret /\
   forall (W : Type) (host : host_call -> W -> completion value * W) (w : W),
     run host (networkInterceptor.send x (VRef 100) args) w
     = host (NativeXhrSend (VRef 100) args) w).
Proof.
  apply (xhr_send_throws_on_blocked_string _ (VRef 100)
           [VStr "https://bat.hotjar.com/api?x=1"]).
  unfold networkInterceptor.XMLHttpRequest.
  apply (returns_Call NativeXhrNew _ (VRef 100)). apply returns_Ret.
Defined.

Example xhr_send_blocked_body :
  networkInterceptor.xhr_send (VRef 100) [VStr "https://bat.hotjar.com/api?x=1"]
  = Throw (VError "Error" "Request blocked").
Proof. reflexivity. Qed.

Example xhr_send_null_body :
  networkInterceptor.xhr_send (VRef 100) [VNull]
  = Call (NativeXhrSend (VRef 100) [VNull]) Ret.
Proof. reflexivity. Qed.

Example xhr_send_object_body :
  networkInterceptor.xhr_send (VRef 100) [VRef 55]
  = Call (NativeXhrSend (VRef 100) [VRef 55]) Ret.
Proof. reflexivity. Qed.

(** An [open] whose URL is neither falsy nor a string fails inside the
    classifier, with a [TypeError]. *)
Example xhr_open_url_object :
  networkInterceptor.xhr_open (VRef 100) [VStr "GET"; VRef 55]
  = Throw (VError "TypeError" "url.toLowerCase is not a function").
Proof. reflexivity. Qed.

(** ** The console filter *)

Section Console.
Import consoleManager.
Context {render : ObjectToString}.

Lemma shouldBlock_spec (args : list value) :
  shouldBlock args = true <-> noisy (toLowerCase (Array_join " " args)).
Proof.
  unfold shouldBlock, noisy, noise_phrases. cbv zeta.
  set (message := toLowerCase (Array_join " " args)).
  rewrite !orb_true_iff, !includes_spec. split.
  - intros H.
    repeat (destruct H as [H | H]);
      eexists; (split; [| exact H]); simpl; tauto.
  - intros [phrase [Hin H]]. simpl in Hin.
    repeat (destruct Hin as [<- | Hin]); tauto.
Qed.

Lemma filtered_noisy (original : sink) (args : list value) :
  shouldBlock args = true -> filtered original args = Ret VUndefined.
Proof. unfold filtered. now intros ->. Qed.

Lemma filtered_quiet (original : sink) (args : list value) :
  shouldBlock args = false ->
  filtered original args = (_ ← original args; Ret VUndefined).
Proof. unfold filtered. now intros ->. Qed.

End Console.

(** C8. For every argument list given to the replaced [console.error]
    or [console.warn]: when the arguments, joined with a space and
    lower-cased, hold one of the noise phrases, the call returns without
    calling the original sink and without throwing; otherwise the
    original sink is called with the same argument list. *)
Theorem console_error_warn_filter {render : ObjectToString}
    (console : consoleManager.console_object) (args : list value) :
  let message := toLowerCase (Array_join " " args) in
  let patched := consoleManager.installed console in
  (consoleManager.noisy message ->
   consoleManager.error patched args = Ret VUndefined /\
   consoleManager.warn patched args = Ret VUndefined) /\
  (~ consoleManager.noisy message ->
   consoleManager.error patched args
   = (_ ← consoleManager.error console args; Ret VUndefined) /\
   consoleManager.warn patched args
   = (_ ← consoleManager.warn console args; Ret VUndefined)) /\
  (~ consoleManager.noisy message ->
   forall (W : Type) (host : host_call -> W -> completion value * W) (w : W),
     calls_made host
       (consoleManager.error (consoleManager.installed consoleManager.native_console) args) w
     = [NativeConsole LevelError args] /\
     calls_made host
       (consoleManager.warn (consoleManager.installed consoleManager.native_console) args) w
     = [NativeConsole LevelWarn args]).
Proof.
  intros message patched. subst message patched.
  unfold consoleManager.installed, consoleManager.init. simpl.
  split; [| split].
  - intros H. apply shouldBlock_spec in H.
    now rewrite !(filtered_noisy _ _ H).
  - intros H. rewrite <- shouldBlock_spec, not_true_iff_false in H.
    now rewrite !(filtered_quiet _ _ H).
  - intros H W host w. rewrite <- shouldBlock_spec, not_true_iff_false in H.
    rewrite !(filtered_quiet _ _ H). split; apply calls_made_discard.
Qed.

(** C10. [console.log] is not replaced: after installation every call
    of it is the original [log] sink applied to the same arguments,
    whether or not the arguments hold a phrase that [error] and [warn]
    would drop. *)
Theorem console_log_not_filtered {render : ObjectToString}
    (console : consoleManager.console_object) (args : list value) :
  consoleManager.log (consoleManager.installed console) args
  = consoleManager.log console args /\
  consoleManager.log (consoleManager.installed consoleManager.native_console) args
  = Call (NativeConsole LevelLog args) Ret.
Proof. split; reflexivity. Qed.

Example console_error_failed_to_load :
  consoleManager.error
    (consoleManager.installed (render := plain_object_toString)
       consoleManager.native_console)
    [VStr "Failed to load resource:"; VStr "net::ERR_FAILED"]
  = Ret VUndefined.
Proof. reflexivity. Qed.

Example console_warn_unrelated :
  consoleManager.warn
    (consoleManager.installed (render := plain_object_toString)
       consoleManager.native_console)
    [VStr "Slow network, retry"; VNum 3; VNull]
  = Call (NativeConsole LevelWarn [VStr "Slow network, retry"; VNum 3; VNull])
         (fun _ => Ret VUndefined).
Proof. reflexivity. Qed.

Example console_log_noise :
  consoleManager.log
    (consoleManager.installed (render := plain_object_toString)
       consoleManager.native_console)
    [VStr "Failed to load resource:"; VStr "net::ERR_FAILED"]
  = Call (NativeConsole LevelLog
            [VStr "Failed to load resource:"; VStr "net::ERR_FAILED"]) Ret.
Proof. reflexivity. Qed.

(** With [debugMode] off, [console.debug] is silent. *)
Example console_debug_silent :
  consoleManager.debug
    (consoleManager.installed (render := plain_object_toString)
       consoleManager.native_console)
    [VStr "anything"]
  = Ret VUndefined.
Proof. reflexivity. Qed.

Example Array_join_mixed :
  Array_join (render := plain_object_toString) " "
    [VStr "status"; VNum 404; VNull; VUndefined; VBool false; VRef 9]
  = "status 404   false [object Object]".
Proof. reflexivity. Qed.

(** ** Stub installation *)

Section Stubs.
Import Window.

Lemma defineProperty_other (k key : string) (d : descriptor) (w : global_object) :
  k <> key ->
  properties (defineProperty k d w).2 !! key = properties w !! key.
Proof.
  intros Hne. unfold defineProperty.
  destruct (properties w !! k) as [current|].
  - destruct (redefinition_allowed current d); simpl; [| reflexivity].
    now apply lookup_insert_ne.
  - destruct (extensible w); simpl; [| reflexivity].
    now apply lookup_insert_ne.
Qed.

Lemma defineProperty_Abrupt (k : string) (d : descriptor) (w w' : global_object)
    (e : value) :
  defineProperty k d w = (Abrupt e, w') -> w' = w.
Proof.
  unfold defineProperty.
  destruct (properties w !! k) as [current|].
  - destruct (redefinition_allowed current d); intros H; now inversion H.
  - destruct (extensible w); intros H; now inversion H.
Qed.

(** A successful definition of a stub leaves its value under the key. *)
Lemma defineProperty_stub_value (k : string) (v : value) (w w' : global_object) :
  defineProperty k (stub_descriptor v) w = (Normal (), w') -> get w' k = v.
Proof.
  unfold defineProperty, get.
  destruct (properties w !! k) as [current|].
  - destruct (redefinition_allowed current _); intros H; inversion H; subst; simpl.
    now rewrite lookup_insert_eq.
  - destruct (extensible w); intros H; inversion H; subst; simpl.
    now rewrite lookup_insert_eq.
Qed.

Lemma set_other (k key : string) (v : value) (w : global_object) :
  k <> key ->
  properties (set k v w).2 !! key = properties w !! key.
Proof.
  intros Hne. unfold set.
  destruct (properties w !! k) as [current|].
  - destruct (p_writable current); simpl; [| reflexivity].
    now apply lookup_insert_ne.
  - destruct (extensible w); simpl; [| reflexivity].
    now apply lookup_insert_ne.
Qed.

Lemma set_value (k : string) (v : value) (w w' : global_object) :
  set k v w = (Normal (), w') -> get w' k = v.
Proof.
  unfold set, get.
  destruct (properties w !! k) as [current|].
  - destruct (p_writable current); intros H; inversion H; subst; simpl.
    now rewrite lookup_insert_eq.
  - destruct (extensible w); intros H; inversion H; subst; simpl.
    now rewrite lookup_insert_eq.
Qed.

(** One step of the loop leaves every other key alone. *)
Lemma setupStub_other (k key : string) (v : value) (w : global_object) :
  k <> key ->
  properties (setupStub (k, v) w).2 !! key = properties w !! key.
Proof.
  intros Hne. unfold setupStub.
  destruct (negb (toBoolean (get w k))); [| reflexivity].
  pose proof (defineProperty_other k key (stub_descriptor v) w Hne) as Hdef.
  destruct (defineProperty k (stub_descriptor v) w) as [[u|e] w'] eqn:Hd.
  - exact Hdef.
  - apply defineProperty_Abrupt in Hd. subst w'. now apply set_other.
Qed.

(** One step of the loop leaves a truthy global as it is. *)
Lemma setupStub_keeps_truthy (entry : string * value) (w : global_object)
    (key : string) (p : property) :
  properties w !! key = Some p ->
  toBoolean (p_value p) = true ->
  properties (setupStub entry w).2 !! key = Some p.
Proof.
  intros Hp Htrue. destruct entry as [k v].
  destruct (decide (k = key)) as [-> | Hne].
  - unfold setupStub, get. rewrite Hp, Htrue. exact Hp.
  - now rewrite setupStub_other.
Qed.

Lemma forEach_setupStub_keeps_truthy (entries : list (string * value))
    (w : global_object) (key : string) (p : property) :
  properties w !! key = Some p ->
  toBoolean (p_value p) = true ->
  properties (forEach setupStub entries w).2 !! key = Some p.
Proof.
  revert w. induction entries as [|entry entries IH]; intros w Hp Htrue.
  - exact Hp.
  - cbn [forEach].
    pose proof (setupStub_keeps_truthy entry w key p Hp Htrue) as Hstep.
    destruct (setupStub entry w) as [[u|e] w']; simpl in *.
    + now apply IH.
    + exact Hstep.
Qed.

(** A step that completes leaves a truthy value under its key, when the
    stub is truthy. *)
Lemma setupStub_installs (k : string) (v : value) (w w' : global_object) :
  toBoolean v = true ->
  setupStub (k, v) w = (Normal (), w') ->
  toBoolean (get w' k) = true.
Proof.
  intros Hv. unfold setupStub.
  destruct (negb (toBoolean (get w k))) eqn:Hfalsy.
  - destruct (defineProperty k (stub_descriptor v) w) as [[[]|e] w1] eqn:Hd.
    + intros H. inversion H; subst.
      now rewrite (defineProperty_stub_value _ _ _ _ Hd).
    + apply defineProperty_Abrupt in Hd. subst w1.
      intros H. now rewrite (set_value _ _ _ _ H).
  - intros H. inversion H; subst. now apply negb_false_iff in Hfalsy.
Qed.

Lemma truthy_get_property (w : global_object) (key : string) :
  toBoolean (get w key) = true ->
  exists p, properties w !! key = Some p /\ toBoolean (p_value p) = true.
Proof.
  unfold get. destruct (properties w !! key) as [p|]; [| discriminate].
  intros H. now exists p.
Qed.

Lemma setupStub_keeps_truthy_get (entry : string * value) (w : global_object)
    (key : string) :
  toBoolean (get w key) = true ->
  toBoolean (get (setupStub entry w).2 key) = true.
Proof.
  intros H. destruct (truthy_get_property w key H) as [p [Hp Htrue]].
  unfold get at 1. now rewrite (setupStub_keeps_truthy entry w key p Hp Htrue).
Qed.

(** After a loop that completes, every entry's key holds a truthy value. *)
Lemma forEach_setupStub_all_truthy (entries : list (string * value))
    (w w' : global_object) :
  Forall (fun entry => toBoolean entry.2 = true) entries ->
  forEach setupStub entries w = (Normal (), w') ->
  (forall key, toBoolean (get w key) = true -> toBoolean (get w' key) = true) /\
  Forall (fun entry => toBoolean (get w' entry.1) = true) entries.
Proof.
  revert w. induction entries as [|[k v] entries IH]; intros w Hall Hrun.
  - simpl in Hrun. inversion Hrun; subst. split; [tauto | constructor].
  - cbn [forEach] in Hrun. inversion Hall as [| ? ? Hv Hall']; subst. simpl in Hv.
    destruct (setupStub (k, v) w) as [[[]|e] w1] eqn:Hstep; [| discriminate].
    destruct (IH w1 Hall' Hrun) as [Hkeep Hrest].
    assert (Hframe : forall key, toBoolean (get w key) = true ->
                                 toBoolean (get w' key) = true).
    { intros key H. apply Hkeep.
      pose proof (setupStub_keeps_truthy_get (k, v) w key H) as H1.
      now rewrite Hstep in H1. }
    split; [exact Hframe |].
    constructor; [| exact Hrest].
    simpl. apply Hkeep. now apply (setupStub_installs k v w w1).
Qed.

(** The loop does nothing when every key already holds a truthy value. *)
Lemma forEach_setupStub_noop (entries : list (string * value)) (w : global_object) :
  Forall (fun entry => toBoolean (get w entry.1) = true) entries ->
  forEach setupStub entries w = (Normal (), w).
Proof.
  induction 1 as [|[k v] entries Hk Hall IH]; [reflexivity |].
  cbn [forEach setupStub]. simpl in Hk. rewrite Hk. exact IH.
Qed.

Lemma trackingStubs_truthy :
  Forall (fun entry : string * value => toBoolean entry.2 = true) trackingStubs.
Proof. unfold trackingStubs. repeat constructor. Qed.

End Stubs.

Section StubsFrame.
Import Window.

Lemma forEach_setupStub_other (entries : list (string * value))
    (w : global_object) (key : string) :
  ~ In key (map fst entries) ->
  properties (forEach setupStub entries w).2 !! key = properties w !! key.
Proof.
  revert w. induction entries as [|[k v] entries IH]; intros w Hnot.
  - reflexivity.
  - cbn [forEach]. simpl in Hnot.
    assert (Hne : k <> key) by tauto.
    pose proof (setupStub_other k key v w Hne) as Hstep.
    destruct (setupStub (k, v) w) as [[u|e] w']; simpl in *.
    + rewrite IH; [exact Hstep | tauto].
    + exact Hstep.
Qed.

End StubsFrame.

(** C6 as stated fails: a global that exists with a falsy value, here
    [GoogleAnalyticsObject] set to the empty string by the page, is
    replaced by the stub. *)
Lemma setupStubs_overwrites_falsy_global :
  Window.properties (Window.window_of [("GoogleAnalyticsObject", Window.assigned (VStr ""))])
    !! "GoogleAnalyticsObject"
  = Some (Window.assigned (VStr "")) /\
  (setupStubs (Window.window_of [("GoogleAnalyticsObject", Window.assigned (VStr ""))])).1
  = Normal () /\
  Window.get
    (setupStubs (Window.window_of [("GoogleAnalyticsObject", Window.assigned (VStr ""))])).2
    "GoogleAnalyticsObject"
  = VBool true.
Proof. vm_compute. repeat split. Qed.

(** C6, amended. Stub installation leaves a global untouched, value and
    attributes, unless it is a name of the stub table whose current value
    is falsy: every global that holds a truthy value, and every global
    that is not in the table, is after [setupStubs] what it was before,
    whether or not the installation completes. *)
Theorem setupStubs_keeps_truthy_globals (w : Window.global_object) (key : string) :
  (In key (map fst trackingStubs) -> toBoolean (Window.get w key) = true) ->
  Window.properties (setupStubs w).2 !! key = Window.properties w !! key.
Proof.
  intros H. unfold setupStubs.
  destruct (decide (In key (map fst trackingStubs))) as [Hin | Hnot].
  - destruct (truthy_get_property w key (H Hin)) as [p [Hp Htrue]].
    rewrite Hp. now apply forEach_setupStub_keeps_truthy.
  - now apply forEach_setupStub_other.
Qed.

Lemma setupStubs_keeps_truthy_globals_witness :
  Window.properties
    (setupStubs (Window.window_of [("dataLayer", Window.assigned (VRef 900))])).2
    !! "dataLayer"
  = Window.properties (Window.window_of [("dataLayer", Window.assigned (VRef 900))])
      !! "dataLayer".
Proof.
  apply (setupStubs_keeps_truthy_globals
           (Window.window_of [("dataLayer", Window.assigned (VRef 900))]) "dataLayer").
  intros _. vm_compute. reflexivity.
Defined.

(** C7. Stub installation is idempotent: after a call that completed, a
    second call completes too and changes nothing, so every global of the
    stub table still holds the value it held after the first call. *)
Theorem setupStubs_idempotent (w w1 : Window.global_object) :
  setupStubs w = (Normal (), w1) ->
  setupStubs w1 = (Normal (), w1) /\
  Forall (fun entry => Window.get (setupStubs w1).2 entry.1 = Window.get w1 entry.1)
         trackingStubs.
Proof.
  intros Hfirst. unfold setupStubs in *.
  destruct (forEach_setupStub_all_truthy _ _ _ trackingStubs_truthy Hfirst)
    as [_ Hall].
  rewrite (forEach_setupStub_noop _ _ Hall).
  split; [reflexivity |]. apply Forall_forall. intros entry _. reflexivity.
Qed.

Lemma setupStubs_idempotent_witness :
  setupStubs (setupStubs (Window.window_of [])).2
  = (Normal (), (setupStubs (Window.window_of [])).2) /\
  Forall (fun entry =>
            Window.get (setupStubs (setupStubs (Window.window_of [])).2).2 entry.1
            = Window.get (setupStubs (Window.window_of [])).2 entry.1)
         trackingStubs.
Proof.
  apply (setupStubs_idempotent (Window.window_of [])).
  vm_compute. reflexivity.
Defined.

(** On an empty global object every stub is installed, locked. *)
Example setupStubs_fresh_window :
  (setupStubs (Window.window_of [])).1 = Normal () /\
  Window.properties (setupStubs (Window.window_of [])).2 !! "gtag"
  = Some (Window.locked (VRef 1)) /\
  Window.properties (setupStubs (Window.window_of [])).2 !! "trackCustom"
  = Some (Window.locked (VRef 23)).
Proof. vm_compute. repeat split. Qed.

(** A global declared with [var] and never assigned is there with the
    value [undefined], writable but not configurable: the definition goes
    through and locks it. *)
Example setupStubs_declared_var :
  let w := Window.window_of
    [("hj", {| Window.p_value := VUndefined; Window.p_writable := true;
               Window.p_enumerable := true; Window.p_configurable := false |})] in
  (setupStubs w).1 = Normal () /\
  Window.properties (setupStubs w).2 !! "hj"
  = Some {| Window.p_value := VRef 19; Window.p_writable := false;
            Window.p_enumerable := true; Window.p_configurable := false |}.
Proof. vm_compute. repeat split. Qed.

(** When the definition is refused, for a locked falsy global, the plain
    assignment the script falls back to is refused as well in strict
    code, and the installation ends with that [TypeError]. *)
Example setupStubs_locked_falsy_global :
  (setupStubs (Window.window_of [("fbq", Window.locked (VNum 0))])).1
  = Abrupt (VError "TypeError" "Cannot assign to read only property").
Proof. vm_compute. reflexivity. Qed.

(** ** The script blocker *)

Section ScriptElements.
Import Dom.
Context {render : ObjectToString}.

Lemma createElement_script (tagName : string) :
  toLowerCase tagName = "script" ->
  guarded (scriptBlocker.createElement tagName) = true /\
  attributes (scriptBlocker.createElement tagName) = ∅.
Proof.
  intros H. unfold scriptBlocker.createElement. cbv zeta. rewrite H. split; reflexivity.
Qed.


Lemma getAttribute_native_setAttribute (name : string) (v : value) (el : element) :
  getAttribute (native_setAttribute name v el) name = VStr (toString v).
Proof.
  unfold getAttribute, native_setAttribute. simpl. now rewrite lookup_insert_eq.
Qed.

(** The test of the replaced [setAttribute] is true exactly for the
    names [src] and [data-src] with a string value that is blocked. *)
Lemma drop_condition_spec (name : string) (v : value) :
  exists b : bool,
    scriptBlocker.drop_condition name v = Normal b /\
    (b = true <-> (name = "src" \/ name = "data-src") /\ blocked_string v).
Proof.
  unfold scriptBlocker.drop_condition, blocked_string.
  destruct v as [| |b|n|s|nm msg|u|r|r]; simpl;
    try (exists false; split; [now destruct_all bool; try destruct (negb _) |];
         split; [discriminate | intros [_ [s [Hs _]]]; discriminate]).
  destruct (negb (String.eqb s "")) eqn:Hne.
  - destruct (String.eqb name "src" || String.eqb name "data-src") eqn:Hname.
    + rewrite isDomainBlocked_string. eexists. split; [reflexivity |].
      apply orb_true_iff in Hname. rewrite !String.eqb_eq in Hname. split.
      * intros Hb. split; [exact Hname |]. exists s. split; [reflexivity |].
        now rewrite isDomainBlocked_string, Hb.
      * intros [_ [s' [Hs Hb]]]. injection Hs as <-.
        rewrite isDomainBlocked_string in Hb. now injection Hb.
    + exists false. split; [reflexivity |]. split; [discriminate |].
      intros [Hn _]. apply orb_false_iff in Hname.
      rewrite !String.eqb_neq in Hname. tauto.
  - exists false. split; [reflexivity |]. split; [discriminate |].
    intros [_ [s' [Hs Hb]]]. injection Hs as <-.
    apply negb_false_iff, String.eqb_eq in Hne. subst s. discriminate Hb.
Qed.

Lemma guarded_setAttribute_dropped (el : element) (name : string) (v : value) :
  guarded el = true ->
  (name = "src" \/ name = "data-src") -> blocked_string v ->
  Element.setAttribute el name v = Normal el.
Proof.
  intros Hg Hname Hv. unfold Element.setAttribute, scriptBlocker.setAttribute.
  rewrite Hg. destruct (drop_condition_spec name v) as [b [-> Hiff]].
  now rewrite (proj2 Hiff (conj Hname Hv)).
Qed.

Lemma guarded_setAttribute_passed (el : element) (name : string) (v : value) :
  guarded el = true ->
  ~ ((name = "src" \/ name = "data-src") /\ blocked_string v) ->
  Element.setAttribute el name v = Normal (native_setAttribute name v el).
Proof.
  intros Hg Hnot. unfold Element.setAttribute, scriptBlocker.setAttribute.
  rewrite Hg. destruct (drop_condition_spec name v) as [b [-> Hiff]].
  destruct b; [exfalso; apply Hnot, Hiff; reflexivity | reflexivity].
Qed.

Lemma guarded_set_src_blocked (el : element) (s : string) :
  guarded el = true ->
  isDomainBlocked (VStr s) = Normal true ->
  Element.set_src el (VStr s) = Normal el.
Proof.
  intros Hg Hb. unfold Element.set_src, scriptBlocker.set_src,
    scriptBlocker.forward_condition.
  rewrite Hg, Hb. now destruct (toBoolean (VStr s)).
Qed.

Lemma guarded_set_src_empty (el : element) :
  guarded el = true -> Element.set_src el (VStr "") = Normal el.
Proof. intros Hg. unfold Element.set_src. now rewrite Hg. Qed.

Lemma guarded_set_src_forwarded (el : element) (s : string) :
  guarded el = true ->
  s <> "" ->
  isDomainBlocked (VStr s) = Normal false ->
  Element.set_src el (VStr s) = Normal (native_setAttribute "src" (VStr s) el).
Proof.
  intros Hg Hs Hb. unfold Element.set_src, scriptBlocker.set_src,
    scriptBlocker.forward_condition.
  rewrite Hg, Hb. simpl. rewrite (proj2 (String.eqb_neq _ _) Hs). simpl.
  unfold scriptBlocker.setAttribute, scriptBlocker.drop_condition. simpl.
  rewrite (proj2 (String.eqb_neq _ _) Hs). simpl. now rewrite Hb.
Qed.

End ScriptElements.

(** C5 as stated fails: the empty string is not blocked, yet setting
    [src] to it on a new script element writes no attribute, so the
    attribute stays unset instead of being the empty string. *)
Lemma src_setter_ignores_empty_string :
  isDomainBlocked (VStr "") = Normal false /\
  Element.set_src (render := plain_object_toString)
    (scriptBlocker.createElement "script") (VStr "")
  = Normal (scriptBlocker.createElement "script") /\
  scriptBlocker.get_src (scriptBlocker.createElement "script") = VNull.
Proof. repeat split. Qed.

(** C5, amended. On every element that the replaced [createElement]
    makes for a tag name that lower-cases to "script": setting [src] to a
    blocked string writes no attribute and throws nothing, so [src]
    remains unset; setting [src] to a string that is not empty and not
    blocked gives the attribute that value; [setAttribute] of [src] or
    [data-src] with a blocked string is dropped without an error; and
    [setAttribute] with any other name or any other value is the native
    [setAttribute]. *)
Theorem script_src_guard {render : ObjectToString} (tagName : string) :
  toLowerCase tagName = "script" ->
  let el := scriptBlocker.createElement tagName in
  (forall s, isDomainBlocked (VStr s) = Normal true ->
     Element.set_src el (VStr s) = Normal el /\ scriptBlocker.get_src el = VNull) /\
  (forall s, s <> "" -> isDomainBlocked (VStr s) = Normal false ->
     exists el', Element.set_src el (VStr s) = Normal el' /\
                 scriptBlocker.get_src el' = VStr s) /\
  (forall name s, name = "src" \/ name = "data-src" ->
     isDomainBlocked (VStr s) = Normal true ->
     Element.setAttribute el name (VStr s) = Normal el) /\
  (forall name v, ~ ((name = "src" \/ name = "data-src") /\ blocked_string v) ->
     Element.setAttribute el name v = Normal (Dom.native_setAttribute name v el)).
Proof.
  intros Htag el. destruct (createElement_script tagName Htag) as [Hg Hattrs].
  fold el in Hg, Hattrs. repeat split.
  - now apply guarded_set_src_blocked.
  - unfold scriptBlocker.get_src, Dom.getAttribute. now rewrite Hattrs.
  - intros s Hs Hb. eexists. split; [now apply guarded_set_src_forwarded |].
    apply getAttribute_native_setAttribute.
  - intros name s Hname Hb. apply guarded_setAttribute_dropped; [assumption.. |].
    now exists s.
  - intros name v Hnot. now apply guarded_setAttribute_passed.
Qed.

Lemma script_src_guard_witness :
  let el := scriptBlocker.createElement "SCRIPT" in
  (forall s, isDomainBlocked (VStr s) = Normal true ->
     Element.set_src (render := plain_object_toString) el (VStr s) = Normal el /\
     scriptBlocker.get_src el = VNull) /\
  (forall s, s <> "" -> isDomainBlocked (VStr s) = Normal false ->
     exists el', Element.set_src (render := plain_object_toString) el (VStr s)
                 = Normal el' /\
                 scriptBlocker.get_src el' = VStr s) /\
  (forall name s, name = "src" \/ name = "data-src" ->
     isDomainBlocked (VStr s) = Normal true ->
     Element.setAttribute (render := plain_object_toString) el name (VStr s)
     = Normal el) /\
  (forall name v, ~ ((name = "src" \/ name = "data-src") /\ blocked_string v) ->
     Element.setAttribute (render := plain_object_toString) el name v
     = Normal (Dom.native_setAttribute (render := plain_object_toString) name v el)).
Proof.
  apply (script_src_guard (render := plain_object_toString) "SCRIPT").
  reflexivity.
Defined.

Example script_src_blocked :
  Element.set_src (render := plain_object_toString)
    (scriptBlocker.createElement "script")
    (VStr "https://www.googletagmanager.com/gtm.js?id=GTM-1")
  = Normal (scriptBlocker.createElement "script").
Proof. reflexivity. Qed.

Example script_src_allowed :
  (fun r => match r with
            | Normal el => scriptBlocker.get_src el
            | Abrupt e => e
            end)
    (Element.set_src (render := plain_object_toString)
       (scriptBlocker.createElement "script") (VStr "/js/app.js"))
  = VStr "/js/app.js".
Proof. vm_compute. reflexivity. Qed.

(** A [src] that is an object, such as a [URL], fails inside the
    classifier. *)
Example script_src_url_object :
  Element.set_src (render := plain_object_toString)
    (scriptBlocker.createElement "script") (VRef 55)
  = Abrupt (VError "TypeError" "url.toLowerCase is not a function").
Proof. reflexivity. Qed.

(** Elements of another kind are the native ones. *)
Example createElement_div :
  scriptBlocker.createElement "div" = Dom.native_createElement "div".
Proof. reflexivity. Qed.

(** ** The consent banner *)

Section ConsentFlow.
Import Dom Consent.

Lemma find_index_snoc (f : element -> bool) (l : list element) (x : element) :
  find_index f (l ++ [x])
  = match find_index f l with
    | Some i => Some i
    | None => if f x then Some (List.length l) else None
    end.
Proof.
  induction l as [|y l IH]; simpl.
  - now destruct (f x).
  - destruct (f y); [reflexivity |]. rewrite IH.
    destruct (find_index f l); [reflexivity |]. now destruct (f x).
Qed.

Lemma lookup_snoc (l : list element) (x : element) :
  ((l ++ [x])%list : list element) !! List.length l = Some x.
Proof. induction l as [|y l IH]; [reflexivity | exact IH]. Qed.

Lemma alter_snoc (f : element -> element) (l : list element) (x : element) :
  alter f (List.length l) (l ++ [x])%list = (l ++ [f x])%list.
Proof. induction l as [|y l IH]; [reflexivity |]. cbn. f_equal. exact IH. Qed.

Lemma getElementById_None (d : document) (id : string) :
  getElementById d id = None ->
  find_index (has_id id) (head d) = None /\ find_index (has_id id) (body d) = None.
Proof.
  unfold getElementById.
  destruct (find_index (has_id id) (head d)); [discriminate |].
  destruct (find_index (has_id id) (body d)); [discriminate | tauto].
Qed.

(** Where the banner is once [initConsentManagement] has run on a
    document that had no element under its id. *)
Lemma initConsentManagement_banner (pg : page) :
  getElementById (doc pg) "consent-banner" = None ->
  getElementById (doc (initConsentManagement pg)) "consent-banner"
  = Some (InBody (List.length (body (doc pg)))) /\
  node (doc (initConsentManagement pg)) (InBody (List.length (body (doc pg))))
  = Some consentBanner.
Proof.
  intros Hnone. apply getElementById_None in Hnone as [Hhead Hbody].
  unfold initConsentManagement, getElementById. simpl.
  rewrite !find_index_snoc, Hhead, Hbody.
  split; [reflexivity | apply lookup_snoc].
Qed.

(** With a stored choice that is not the empty string the listener
    leaves the page alone. *)
Lemma onDOMContentLoaded_stored (pg : page) (choice : string) :
  localStorage pg !! "cookieConsent" = Some choice ->
  choice <> "" ->
  onDOMContentLoaded pg = pg.
Proof.
  intros Hc Hne. unfold onDOMContentLoaded, getItem. rewrite Hc. simpl.
  now rewrite (proj2 (String.eqb_neq _ _) Hne).
Qed.

End ConsentFlow.

(** C9. The consent flow.  On a page with no stored consent (and no
    element under the banner's id yet) the [DOMContentLoaded] listener
    creates the banner and appends it to the body; [acceptEssentialOnly]
    then completes, stores "essential" under [cookieConsent] and sets
    the banner's [display] to "none"; and on any later load with that
    storage, as with any stored choice that is not the empty string, the
    listener creates nothing. *)
Theorem consent_flow (pg : Consent.page) :
  Consent.localStorage pg !! "cookieConsent" = None ->
  Dom.getElementById (Consent.doc pg) "consent-banner" = None ->
  let loaded := Consent.onDOMContentLoaded pg in
  let banner := Dom.InBody (List.length (Dom.body (Consent.doc pg))) in
  (Dom.getElementById (Consent.doc loaded) "consent-banner" = Some banner /\
   Dom.node (Consent.doc loaded) banner = Some Consent.consentBanner /\
   Dom.style_display Consent.consentBanner = "") /\
  exists accepted,
    Consent.acceptEssentialOnly loaded = (Normal (), accepted) /\
    Consent.localStorage accepted !! "cookieConsent" = Some "essential" /\
    Dom.node (Consent.doc accepted) banner
    = Some (Dom.set_style_display "none" Consent.consentBanner) /\
    (forall d : Dom.document,
       Consent.onDOMContentLoaded (Consent.reload d accepted)
       = Consent.reload d accepted) /\
    (forall (later : Consent.page) (choice : string),
       Consent.localStorage later !! "cookieConsent" = Some choice ->
       choice <> "" ->
       Consent.onDOMContentLoaded later = later).
Proof.
  intros Hnone Hid loaded banner.
  assert (Hloaded : loaded = Consent.initConsentManagement pg).
  { subst loaded. unfold Consent.onDOMContentLoaded, Consent.getItem.
    now rewrite Hnone. }
  destruct (initConsentManagement_banner pg Hid) as [Hfind Hnode].
  rewrite <- Hloaded in Hfind, Hnode. fold banner in Hfind, Hnode.
  split; [repeat split; assumption |].
  unfold Consent.acceptEssentialOnly, Consent.accept.
  cbn [Consent.doc Consent.setItem]. rewrite Hfind.
  eexists. split; [reflexivity |]. split; [| split; [| split]].
  - simpl. apply lookup_insert_eq.
  - rewrite Hloaded. subst banner. unfold Consent.initConsentManagement. simpl.
    rewrite alter_snoc. apply lookup_snoc.
  - intros d. apply (onDOMContentLoaded_stored _ "essential"); [| discriminate].
    simpl. apply lookup_insert_eq.
  - intros later choice. apply onDOMContentLoaded_stored.
Qed.

Lemma consent_flow_witness :
  let loaded := Consent.onDOMContentLoaded Consent.first_visit in
  let banner := Dom.InBody 0 in
  (Dom.getElementById (Consent.doc loaded) "consent-banner" = Some banner /\
   Dom.node (Consent.doc loaded) banner = Some Consent.consentBanner /\
   Dom.style_display Consent.consentBanner = "") /\
  exists accepted,
    Consent.acceptEssentialOnly loaded = (Normal (), accepted) /\
    Consent.localStorage accepted !! "cookieConsent" = Some "essential" /\
    Dom.node (Consent.doc accepted) banner
    = Some (Dom.set_style_display "none" Consent.consentBanner) /\
    (forall d : Dom.document,
       Consent.onDOMContentLoaded (Consent.reload d accepted)
       = Consent.reload d accepted) /\
    (forall (later : Consent.page) (choice : string),
       Consent.localStorage later !! "cookieConsent" = Some choice ->
       choice <> "" ->
       Consent.onDOMContentLoaded later = later).
Proof.
  apply (consent_flow Consent.first_visit); reflexivity.
Defined.

(** Without the banner in the document, [acceptEssentialOnly] stores the
    choice and then fails on the missing element. *)
Example acceptEssentialOnly_without_banner :
  (Consent.acceptEssentialOnly Consent.first_visit).1
  = Abrupt (VError "TypeError" "Cannot read properties of null (reading 'style')") /\
  Consent.localStorage (Consent.acceptEssentialOnly Consent.first_visit).2
    !! "cookieConsent"
  = Some "essential".
Proof. vm_compute. split; reflexivity. Qed.

(** * Further properties *)

(** ** The classifier on arbitrary values and strings *)

Section ClassifierMore.

Lemma append_assoc (a b c : string) : (a +:+ b) +:+ c = a +:+ (b +:+ c).
Proof.
  induction a as [|x a IH]; [reflexivity |].
  rewrite !append_cons. now rewrite IH.
Qed.

Lemma substring_of_trans (a b c : string) :
  substring_of a b -> substring_of b c -> substring_of a c.
Proof.
  intros [p1 [q1 ->]] [p2 [q2 ->]].
  exists (p2 +:+ p1), (q1 +:+ q2). now rewrite !append_assoc.
Qed.

Lemma substring_of_toLowerCase (a b : string) :
  substring_of a b -> substring_of (toLowerCase a) (toLowerCase b).
Proof.
  intros [p [q ->]]. exists (toLowerCase p), (toLowerCase q).
  unfold toLowerCase. now rewrite !map_chars_app.
Qed.

Lemma includes_mono (hay hay' needle : string) :
  substring_of hay hay' ->
  includes hay needle = true -> includes hay' needle = true.
Proof.
  intros Hsub. rewrite !includes_spec. intros H.
  exact (substring_of_trans _ _ _ H Hsub).
Qed.

Lemma some_blockedDomains_mono (low low' : string) :
  substring_of low low' ->
  existsb (domain_matches low) blockedDomains = true ->
  existsb (domain_matches low') blockedDomains = true.
Proof.
  intros Hsub. rewrite !existsb_exists. intros [d [Hin Hd]].
  exists d. split; [exact Hin |]. unfold domain_matches in *.
  apply orb_true_iff in Hd. apply orb_true_iff.
  destruct Hd as [Hd | Hd]; [left | right]; exact (includes_mono _ _ _ Hsub Hd).
Qed.

End ClassifierMore.

(** X1. Letter case never matters to the classifier: two strings with
    the same lower-case form are classified alike. *)
Theorem isDomainBlocked_ignores_case (s t : string) :
  toLowerCase s = toLowerCase t ->
  isDomainBlocked (VStr s) = isDomainBlocked (VStr t).
Proof. intros H. now rewrite !isDomainBlocked_string, H. Qed.

Lemma isDomainBlocked_ignores_case_witness :
  isDomainBlocked (VStr "HTTPS://Cdn.MixPanel.COM/lib.js")
  = isDomainBlocked (VStr "https://cdn.mixpanel.com/lib.js").
Proof.
  apply (isDomainBlocked_ignores_case "HTTPS://Cdn.MixPanel.COM/lib.js"
           "https://cdn.mixpanel.com/lib.js").
  reflexivity.
Defined.

(** X2. A blocked string stays blocked inside any longer string:
    whatever is put before and after it, the result is blocked too. *)
Theorem isDomainBlocked_superstring (pre s post : string) :
  isDomainBlocked (VStr s) = Normal true ->
  isDomainBlocked (VStr (pre +:+ s +:+ post)) = Normal true.
Proof.
  rewrite !isDomainBlocked_string. intros H. injection H as H. f_equal.
  apply (some_blockedDomains_mono (toLowerCase s)); [| exact H].
  apply substring_of_toLowerCase. now exists pre, post.
Qed.

Lemma isDomainBlocked_superstring_witness :
  isDomainBlocked
    (VStr ("https://proxy.example/?u=" +:+ "hotjar.com/x.js" +:+ "&cache=1"))
  = Normal true.
Proof.
  apply (isDomainBlocked_superstring "https://proxy.example/?u=" "hotjar.com/x.js"
           "&cache=1").
  reflexivity.
Defined.

(** X3. The classifier throws exactly on the values that are truthy and
    not strings, always the same [TypeError]; on every falsy value it
    answers [false]. *)
Theorem isDomainBlocked_throws_iff (v : value) :
  ((exists e, isDomainBlocked v = Abrupt e) <->
   toBoolean v = true /\ is_string v = false) /\
  (forall e, isDomainBlocked v = Abrupt e ->
     e = VError "TypeError" "url.toLowerCase is not a function") /\
  (toBoolean v = false -> isDomainBlocked v = Normal false).
Proof.
  split; [| split].
  - destruct v as [| |b|n|s|nm msg|u|r|r]; unfold isDomainBlocked; simpl;
      try (split; [intros [e H]; discriminate | intros [H1 H2]; discriminate]);
      try (split; [intros _; now split | intros _; eexists; reflexivity]).
    + destruct b; simpl.
      * split; [intros _; now split | intros _; eexists; reflexivity].
      * split; [intros [e H]; discriminate | intros [H1 H2]; discriminate].
    + destruct (negb (n =? 0)%Z); simpl.
      * split; [intros _; now split | intros _; eexists; reflexivity].
      * split; [intros [e H]; discriminate | intros [H1 H2]; discriminate].
    + destruct (negb (String.eqb s "")); simpl;
        (split; [intros [e H]; discriminate | intros [H1 H2]; discriminate]).
  - intros e. unfold isDomainBlocked.
    destruct (negb (toBoolean v)); [discriminate |].
    destruct v; intros H; inversion H; reflexivity.
  - intros H. unfold isDomainBlocked. now rewrite H.
Qed.

(** ** The network interceptor on arbitrary arguments *)

Section NetworkMore.
Import networkInterceptor networkInstall.

Lemma isDomainBlocked_truthy_non_string (v : value) :
  toBoolean v = true -> is_string v = false ->
  isDomainBlocked v = Abrupt (VError "TypeError" "url.toLowerCase is not a function").
Proof.
  intros Ht Hs. unfold isDomainBlocked. rewrite Ht. simpl.
  destruct v; try reflexivity; discriminate.
Qed.

(** The test of [send] never throws. *)
Lemma send_condition_total (data : value) :
  exists b : bool, send_condition data = Normal b.
Proof. destruct (send_condition_spec data) as [b [H _]]. now exists b. Qed.

Lemma returns_bind {A B : Type} (f : A -> prog B) (p : prog A) (b : B) :
  returns (prog_bind f p) b <-> exists a, returns p a /\ returns (f a) b.
Proof.
  induction p as [a | e | c k IH]; simpl.
  - split.
    + intros H. exists a. split; [constructor | exact H].
    + intros [a' [Ha H]]. inversion Ha; subst. exact H.
  - split.
    + intros H. inversion H.
    + intros [a [Ha _]]. inversion Ha.
  - split.
    + intros H. inversion H as [| c' k' v b' Hk]; subst.
      apply IH in Hk as [a [Ha Hb]]. exists a. split; [| exact Hb].
      now apply (returns_Call c k v).
    + intros [a [Ha Hb]]. inversion Ha as [| c' k' v a' Hk]; subst.
      apply (returns_Call c _ v). apply IH. now exists a.
Qed.

Lemma wrap_fetch_twice (original : method) (this : value) (args : list value) :
  wrap_fetch (wrap_fetch original) this args = wrap_fetch original this args.
Proof.
  unfold wrap_fetch. cbv zeta.
  destruct (isDomainBlocked (effective_url (arg 0 args))) as [[|]|e]; reflexivity.
Qed.

Lemma wrap_open_twice (original : method) (this : value) (args : list value) :
  wrap_open (wrap_open original) this args = wrap_open original this args.
Proof.
  unfold wrap_open. cbv zeta.
  destruct (isDomainBlocked (arg 1 args)) as [[|]|e]; reflexivity.
Qed.

Lemma wrap_send_twice (original : method) (this : value) (args : list value) :
  wrap_send (wrap_send original) this args = wrap_send original this args.
Proof.
  unfold wrap_send. cbv zeta.
  destruct (send_condition (arg 0 args)) as [[|]|e]; reflexivity.
Qed.

(** Installed over the browser's own entry points, the wrappers are the
    ones of [networkInterceptor]. *)
Lemma init_native_api :
  api_fetch (init native_api) = fetch /\
  api_XMLHttpRequest (init native_api) = XMLHttpRequest.
Proof. split; reflexivity. Qed.

End NetworkMore.

(** X4. Whatever the arguments are, each of the three wrappers makes at
    most one native call, and that call is its own native function with
    the receiver and the argument list it was given. *)
Theorem wrappers_call_only_their_native
    {W : Type} (host : host_call -> W -> completion value * W) (w : W)
    (this : value) (args : list value) :
  (calls_made host (networkInterceptor.fetch this args) w = [] \/
   calls_made host (networkInterceptor.fetch this args) w = [NativeFetch this args]) /\
  (calls_made host (networkInterceptor.xhr_open this args) w = [] \/
   calls_made host (networkInterceptor.xhr_open this args) w = [NativeXhrOpen this args]) /\
  (calls_made host (networkInterceptor.xhr_send this args) w = [] \/
   calls_made host (networkInterceptor.xhr_send this args) w = [NativeXhrSend this args]).
Proof.
  unfold networkInterceptor.fetch, networkInterceptor.xhr_open,
    networkInterceptor.xhr_send. cbv zeta.
  split; [| split].
  - destruct (isDomainBlocked _) as [[|]|e]; simpl; [now left | right | now left].
    apply calls_made_delegate.
  - destruct (isDomainBlocked _) as [[|]|e]; simpl; [now left | right | now left].
    apply calls_made_delegate.
  - destruct (networkInterceptor.send_condition _) as [[|]|e]; simpl;
      [now left | right | now left].
    apply calls_made_delegate.
Qed.

(** X5. [send] never fails inside the classifier: for every payload, of
    any type, it either throws the "Request blocked" error or is the
    native [send]. *)
Theorem xhr_send_blocks_or_delegates (this : value) (args : list value) :
  networkInterceptor.xhr_send this args = Throw (VError "Error" "Request blocked") \/
  networkInterceptor.xhr_send this args = Call (NativeXhrSend this args) Ret.
Proof.
  destruct (send_condition_total (arg 0 args)) as [b Hb].
  rewrite (xhr_send_classified this args b Hb). destruct b; [now left | now right].
Qed.

(** X6. A URL that is truthy and not a string makes [open] throw a
    [TypeError] instead of opening the request, and a resource that is
    truthy and neither a string nor a [Request] makes [fetch] throw the
    same [TypeError] synchronously instead of returning a promise; in
    neither case is the native function called. *)
Theorem truthy_non_string_url_throws (this : value) (args : list value) :
  (toBoolean (arg 1 args) = true -> is_string (arg 1 args) = false ->
   networkInterceptor.xhr_open this args
   = Throw (VError "TypeError" "url.toLowerCase is not a function")) /\
  (toBoolean (networkInterceptor.effective_url (arg 0 args)) = true ->
   is_string (networkInterceptor.effective_url (arg 0 args)) = false ->
   networkInterceptor.fetch this args
   = Throw (VError "TypeError" "url.toLowerCase is not a function")).
Proof.
  split; intros Ht Hs.
  - unfold networkInterceptor.xhr_open. cbv zeta.
    now rewrite (isDomainBlocked_truthy_non_string _ Ht Hs).
  - unfold networkInterceptor.fetch. cbv zeta.
    now rewrite (isDomainBlocked_truthy_non_string _ Ht Hs).
Qed.

(** X7. Installing the interceptor a second time stacks a second layer
    of wrappers, but changes no behaviour: [fetch] after two
    installations is [fetch] after one, on every call, and every object
    made by the twice-wrapped constructor comes from an object the
    once-wrapped constructor can make, with the same native object and
    pointwise the same [open] and [send]. *)
Theorem network_init_twice (api : networkInstall.request_api) :
  (forall this args,
     networkInstall.api_fetch (networkInstall.init (networkInstall.init api)) this args
     = networkInstall.api_fetch (networkInstall.init api) this args) /\
  (forall x2,
     returns (networkInstall.api_XMLHttpRequest
                (networkInstall.init (networkInstall.init api))) x2 ->
     exists x1,
       returns (networkInstall.api_XMLHttpRequest (networkInstall.init api)) x1 /\
       networkInterceptor.xhr_native x2 = networkInterceptor.xhr_native x1 /\
       forall this args,
         networkInterceptor.open x2 this args = networkInterceptor.open x1 this args /\
         networkInterceptor.send x2 this args = networkInterceptor.send x1 this args).
Proof.
  split.
  - intros this args. apply wrap_fetch_twice.
  - intros x2 H. simpl in H. unfold networkInstall.wrap_XMLHttpRequest in H.
    apply returns_bind in H as [x1 [Hx1 Hx2]].
    exists x1. split; [exact Hx1 |].
    inversion Hx2; subst. simpl.
    pose proof Hx1 as Hx0. simpl in Hx0.
    unfold networkInstall.wrap_XMLHttpRequest in Hx0.
    apply returns_bind in Hx0 as [x0 [_ Hx0]]. inversion Hx0; subst. simpl.
    split; [reflexivity |]. intros this args.
    split; [apply wrap_open_twice | apply wrap_send_twice].
Qed.

(** ** The console filter on longer argument lists *)

Section ConsoleMore.
Import consoleManager.
Context {render : ObjectToString}.

Lemma append_empty_r (s : string) : s +:+ "" = s.
Proof.
  induction s as [|c s IH]; [reflexivity |]. now rewrite append_cons, IH.
Qed.

Lemma substring_of_empty (s : string) : substring_of "" s.
Proof. now exists "", s. Qed.

Lemma substring_of_prefix (a b : string) : substring_of a (a +:+ b).
Proof. now exists "", b. Qed.

Lemma substring_of_suffix (a b : string) : substring_of b (a +:+ b).
Proof. exists a, "". now rewrite append_empty_r. Qed.

Lemma join_cons (sep x : string) (l : list string) :
  join sep (x :: l)
  = match l with
    | [] => x
    | _ :: _ => x +:+ sep +:+ join sep l
    end.
Proof. destruct l; reflexivity. Qed.

(** The join of a list starts the join of every extension of it. *)
Lemma join_prefix (sep : string) (l c : list string) :
  exists post, join sep (l ++ c) = join sep l +:+ post.
Proof.
  induction l as [|x l IH].
  - now exists (join sep c).
  - destruct IH as [post IH]. destruct l as [|y l].
    + cbn [app]. rewrite join_cons. destruct c as [|z c].
      * exists "". now rewrite append_empty_r.
      * now exists (sep +:+ join sep (z :: c)).
    + exists post. change ((x :: y :: l) ++ c)%list with (x :: (y :: l) ++ c)%list.
      rewrite (join_cons sep x ((y :: l) ++ c)). cbn [app] in *.
      rewrite IH. rewrite (join_cons sep x (y :: l)).
      now rewrite !append_assoc.
Qed.

Lemma join_tail_substring (sep x : string) (l : list string) :
  substring_of (join sep l) (join sep (x :: l)).
Proof.
  rewrite join_cons. destruct l as [|y l].
  - apply substring_of_empty.
  - rewrite <- append_assoc. apply substring_of_suffix.
Qed.

Lemma join_middle_substring (sep : string) (a b c : list string) :
  substring_of (join sep b) (join sep (a ++ b ++ c)).
Proof.
  induction a as [|x a IH].
  - cbn [app]. destruct (join_prefix sep b c) as [post ->].
    apply substring_of_prefix.
  - cbn [app]. eapply substring_of_trans; [exact IH |].
    apply join_tail_substring.
Qed.

Lemma noisy_mono (m m' : string) :
  substring_of m m' -> noisy m -> noisy m'.
Proof.
  intros Hsub [phrase [Hin H]]. exists phrase. split; [exact Hin |].
  exact (substring_of_trans _ _ _ H Hsub).
Qed.

End ConsoleMore.

(** X8. A call that [error] or [warn] drop is still dropped with more
    arguments around: if an argument list holds a noise phrase, so does
    every list that has it as a stretch, whatever comes before and
    after. *)
Theorem shouldBlock_more_arguments {render : ObjectToString}
    (before args after : list value) :
  consoleManager.shouldBlock args = true ->
  consoleManager.shouldBlock (before ++ args ++ after) = true.
Proof.
  rewrite !shouldBlock_spec. apply noisy_mono.
  apply substring_of_toLowerCase. unfold Array_join.
  rewrite !map_app. apply join_middle_substring.
Qed.

Lemma shouldBlock_more_arguments_witness :
  consoleManager.shouldBlock (render := plain_object_toString)
    ([VStr "GET"; VNum 404] ++ [VStr "Failed to load resource"] ++ [VRef 3])
  = true.
Proof.
  apply (shouldBlock_more_arguments (render := plain_object_toString)
           [VStr "GET"; VNum 404] [VStr "Failed to load resource"] [VRef 3]).
  reflexivity.
Defined.

(** X9. [consoleManager.init] does not stack filters: it wraps the
    sinks saved at load time, not the current ones, so running it again
    on the console it produced gives the same console, for every
    configuration. *)
Theorem consoleManager_init_idempotent {render : ObjectToString}
    (config : protection_config)
    (originalConsole console : consoleManager.console_object) :
  consoleManager.init config originalConsole
    (consoleManager.init config originalConsole console)
  = consoleManager.init config originalConsole console.
Proof.
  unfold consoleManager.init.
  destruct (blockConsoleErrors config), (debugMode config); reflexivity.
Qed.

(** ** Stub installation: when it completes and what it leaves *)

Section StubsMore.
Import Window.

Lemma trackingStubs_keys_NoDup : NoDup (map fst trackingStubs).
Proof. apply (bool_decide_unpack _). vm_compute. reflexivity. Qed.

Lemma setupStub_extensible (entry : string * value) (w : global_object) :
  extensible (setupStub entry w).2 = extensible w.
Proof.
  destruct entry as [k v]. unfold setupStub.
  destruct (negb (toBoolean (get w k))); [| reflexivity].
  unfold defineProperty.
  destruct (properties w !! k) as [p|] eqn:Hp.
  - destruct (redefinition_allowed p (stub_descriptor v)); [reflexivity |].
    unfold set. rewrite Hp. now destruct (p_writable p).
  - destruct (extensible w) eqn:He; [simpl; now rewrite He |].
    unfold set. now rewrite Hp, He.
Qed.

Lemma refuses_stub_other (k key : string) (v : value) (w : global_object) :
  k <> key ->
  refuses_stub (setupStub (k, v) w).2 key = refuses_stub w key.
Proof.
  intros Hne. unfold refuses_stub, get.
  now rewrite setupStub_other, setupStub_extensible.
Qed.

(** One step completes exactly when the global object does not refuse
    the stub. *)
Lemma setupStub_completes_iff (k : string) (v : value) (w : global_object) :
  toBoolean v = true ->
  (setupStub (k, v) w).1 = Normal () <-> refuses_stub w k = false.
Proof.
  intros Hv. unfold setupStub, refuses_stub, get, defineProperty, set.
  destruct (properties w !! k) as [p|] eqn:Hp.
  - destruct (toBoolean (p_value p)) eqn:Hfalsy; simpl; [tauto |].
    unfold redefinition_allowed.
    destruct (p_configurable p); simpl; [tauto |].
    destruct (p_writable p) eqn:Hw; simpl; [tauto |].
    case_bool_decide as Heq; simpl.
    + exfalso. rewrite Heq in Hv. congruence.
    + rewrite ?Hp, ?Hw. split; discriminate.
  - simpl. destruct (extensible w) eqn:He; simpl; [tauto |].
    rewrite ?Hp, ?He. split; discriminate.
Qed.

Lemma forEach_setupStub_completes_iff (entries : list (string * value))
    (w : global_object) :
  NoDup (map fst entries) ->
  Forall (fun entry => toBoolean entry.2 = true) entries ->
  (forEach setupStub entries w).1 = Normal () <->
  forall key, In key (map fst entries) -> refuses_stub w key = false.
Proof.
  revert w. induction entries as [|[k v] entries IH]; intros w Hnd Hall.
  - simpl. split; [intros _ key [] | reflexivity].
  - inversion Hnd as [| ? ? Hnotin Hnd']; subst.
    inversion Hall as [| ? ? Hv Hall']; subst. simpl in Hv.
    pose proof (setupStub_completes_iff k v w Hv) as Hstep.
    assert (Hother : forall key, In key (map fst entries) ->
              refuses_stub (setupStub (k, v) w).2 key = refuses_stub w key).
    { intros key Hin. apply refuses_stub_other. intros ->.
      apply Hnotin. now apply list_elem_of_In. }
    cbn [forEach]. destruct (setupStub (k, v) w) as [[[]|e] w'] eqn:Hs;
      cbn [fst snd] in *.
    + rewrite (IH w' Hnd' Hall'). split.
      * intros H key [<- | Hin]; [now apply Hstep |].
        rewrite <- (Hother key Hin). now apply H.
      * intros H key Hin. rewrite (Hother key Hin). apply H. now right.
    + split; [discriminate |].
      intros H. exfalso.
      assert (Hk : refuses_stub w k = false) by (apply H; now left).
      apply Hstep in Hk. discriminate.
Qed.

(** A stub whose name was absent ends up locked under that name. *)
Lemma forEach_setupStub_installs_locked (entries : list (string * value))
    (w w' : global_object) (k : string) (v : value) :
  NoDup (map fst entries) ->
  In (k, v) entries ->
  properties w !! k = None ->
  forEach setupStub entries w = (Normal (), w') ->
  properties w' !! k = Some (locked v).
Proof.
  revert w. induction entries as [|[k0 v0] entries IH]; intros w Hnd Hin Hnone Hrun.
  - destruct Hin.
  - inversion Hnd as [| ? ? Hnotin Hnd']; subst.
    cbn [forEach] in Hrun.
    destruct (setupStub (k0, v0) w) as [[[]|e] w1] eqn:Hs; [| discriminate].
    destruct (decide (k0 = k)) as [-> | Hne].
    + assert (v0 = v) as ->.
      { destruct Hin as [Heq | Hin]; [now inversion Heq |].
        exfalso. apply Hnotin. apply list_elem_of_In.
        change k with (fst (k, v)). now apply in_map. }
      assert (Hw1 : properties w1 !! k = Some (locked v)).
      { unfold setupStub, get in Hs. rewrite Hnone in Hs. simpl in Hs.
        unfold defineProperty in Hs. rewrite Hnone in Hs.
        destruct (extensible w) eqn:He.
        - inversion Hs; subst. simpl. now rewrite lookup_insert_eq.
        - unfold set in Hs. rewrite Hnone, He in Hs. discriminate. }
      pose proof (forEach_setupStub_other entries w1 k) as Hkeep.
      rewrite Hrun in Hkeep. simpl in Hkeep. rewrite Hkeep; [exact Hw1 |].
      intros Hin'. apply Hnotin. now apply list_elem_of_In.
    + apply (IH w1 Hnd'); [| | exact Hrun].
      * destruct Hin as [Heq | Hin]; [inversion Heq; congruence | exact Hin].
      * pose proof (setupStub_other k0 k v0 w Hne) as Ho.
        rewrite Hs in Ho. simpl in Ho. now rewrite Ho.
Qed.

Lemma set_locked (k : string) (v v' : value) (w : global_object) :
  properties w !! k = Some (locked v) ->
  set k v' w = (Abrupt (VError "TypeError" "Cannot assign to read only property"), w).
Proof. intros H. unfold set. now rewrite H. Qed.

End StubsMore.

(** X10. After an installation that completed, every name of the stub
    table holds a truthy value, whatever the global object was before:
    page code that tests or calls these names finds something there. *)
Theorem setupStubs_leaves_all_stubs_truthy (w w1 : Window.global_object) :
  setupStubs w = (Normal (), w1) ->
  Forall (fun entry => toBoolean (Window.get w1 entry.1) = true) trackingStubs.
Proof.
  intros H.
  exact (proj2 (forEach_setupStub_all_truthy _ _ _ trackingStubs_truthy H)).
Qed.

Lemma setupStubs_leaves_all_stubs_truthy_witness :
  Forall (fun entry =>
            toBoolean (Window.get
              (setupStubs (Window.window_of [("ga", Window.assigned (VNum 0))])).2
              entry.1) = true)
         trackingStubs.
Proof.
  apply (setupStubs_leaves_all_stubs_truthy
           (Window.window_of [("ga", Window.assigned (VNum 0))])).
  vm_compute. reflexivity.
Defined.

(** X11. The installation completes exactly when the global object
    refuses no stub: it throws if and only if some name of the table
    holds a falsy value and is either absent from a non-extensible
    global object or neither configurable nor writable. *)
Theorem setupStubs_completes_iff (w : Window.global_object) :
  (setupStubs w).1 = Normal () <->
  forall key, In key (map fst trackingStubs) -> refuses_stub w key = false.
Proof.
  apply forEach_setupStub_completes_iff;
    [apply trackingStubs_keys_NoDup | apply trackingStubs_truthy].
Qed.

(** X12. The fallback assignment of [setupStubs] never rescues a refused
    definition: on a global object of data properties, whenever
    [Object.defineProperty] throws for a stub, the plain assignment in
    the [catch] block throws as well and changes nothing. *)
Theorem fallback_assignment_is_refused_too
    (key : string) (v : value) (w w' : Window.global_object) (e : value) :
  Window.defineProperty key (stub_descriptor v) w = (Abrupt e, w') ->
  exists e', Window.set key v w' = (Abrupt e', w) /\ w' = w.
Proof.
  intros Hdef.
  pose proof (defineProperty_Abrupt _ _ _ _ _ Hdef) as ->.
  unfold Window.defineProperty in Hdef. unfold Window.set, Window.get in *.
  destruct (Window.properties w !! key) as [p|].
  - unfold Window.redefinition_allowed in Hdef.
    destruct (Window.p_configurable p); [discriminate |].
    destruct (Window.p_writable p); [discriminate |].
    eexists. split; reflexivity.
  - destruct (Window.extensible w); [discriminate |].
    eexists. split; reflexivity.
Qed.

Lemma fallback_assignment_is_refused_too_witness :
  exists e',
    Window.set "fbq" (VRef 5) (Window.window_of [("fbq", Window.locked (VNum 0))])
    = (Abrupt e', Window.window_of [("fbq", Window.locked (VNum 0))]) /\
    Window.window_of [("fbq", Window.locked (VNum 0))]
    = Window.window_of [("fbq", Window.locked (VNum 0))].
Proof.
  apply (fallback_assignment_is_refused_too "fbq" (VRef 5)
           (Window.window_of [("fbq", Window.locked (VNum 0))])
           (Window.window_of [("fbq", Window.locked (VNum 0))])
           (VError "TypeError" "Cannot redefine property")).
  vm_compute. reflexivity.
Defined.

(** X13. A stub installed under a name that was absent is locked: after
    an installation that completed, the name holds the stub as a
    property that is neither writable nor configurable, and a later
    strict assignment to it throws and leaves the global object as it
    is. *)
Theorem installed_stub_is_locked
    (w w1 : Window.global_object) (key : string) (v v' : value) :
  setupStubs w = (Normal (), w1) ->
  In (key, v) trackingStubs ->
  Window.properties w !! key = None ->
  Window.properties w1 !! key = Some (Window.locked v) /\
  Window.set key v' w1
  = (Abrupt (VError "TypeError" "Cannot assign to read only property"), w1).
Proof.
  intros Hrun Hin Hnone.
  assert (H : Window.properties w1 !! key = Some (Window.locked v)).
  { apply (forEach_setupStub_installs_locked trackingStubs w w1 key v);
      [apply trackingStubs_keys_NoDup | exact Hin | exact Hnone | exact Hrun]. }
  split; [exact H | now apply (set_locked key v)].
Qed.

Lemma installed_stub_is_locked_witness :
  Window.properties (setupStubs (Window.window_of [])).2 !! "dataLayer"
  = Some (Window.locked (VRef 18)) /\
  Window.set "dataLayer" (VRef 77) (setupStubs (Window.window_of [])).2
  = (Abrupt (VError "TypeError" "Cannot assign to read only property"),
     (setupStubs (Window.window_of [])).2).
Proof.
  apply (installed_stub_is_locked (Window.window_of [])
           (setupStubs (Window.window_of [])).2 "dataLayer" (VRef 18) (VRef 77)).
  - vm_compute. reflexivity.
  - vm_compute. tauto.
  - vm_compute. reflexivity.
Defined.

(** ** Script elements over time *)

Section ScriptMore.
Import Dom ScriptOps.
Context {render : ObjectToString}.

Lemma guarded_native_setAttribute (name : string) (v : value) (el : element) :
  guarded (native_setAttribute name v el) = guarded el.
Proof. reflexivity. Qed.

Lemma sources_clean_native_setAttribute (name s : string) (el : element) :
  toLowerCase name = name ->
  sources_clean el ->
  ~ ((name = "src" \/ name = "data-src") /\ blocked_string (VStr s)) ->
  sources_clean (native_setAttribute name (VStr s) el).
Proof.
  intros Hlow Hclean Hnot n s' Hn Hlook.
  unfold native_setAttribute in Hlook. simpl in Hlook. rewrite Hlow in Hlook.
  destruct (decide (name = n)) as [-> | Hne].
  - rewrite lookup_insert_eq in Hlook. injection Hlook as <-.
    intros Hb. apply Hnot. split; [exact Hn |]. now exists s.
  - rewrite lookup_insert_ne in Hlook by exact Hne.
    now apply (Hclean n s').
Qed.

Lemma drop_decision (name : string) (v : value) :
  ((name = "src" \/ name = "data-src") /\ blocked_string v) \/
  ~ ((name = "src" \/ name = "data-src") /\ blocked_string v).
Proof.
  destruct (drop_condition_spec name v) as [b [_ Hiff]]. destruct b.
  - left. now apply Hiff.
  - right. intros H. apply Hiff in H. discriminate.
Qed.

(** One operation keeps the guard and the cleanliness of the sources. *)
Lemma apply_op_keeps_clean (el : element) (op : script_op) :
  guarded el = true -> sources_clean el -> lower_name op ->
  exists el', apply_op el op = Normal el' /\
              guarded el' = true /\ sources_clean el'.
Proof.
  intros Hg Hclean Hlow. destruct op as [s | name s]; simpl in *.
  - destruct (String.eqb_spec s "") as [-> | Hs].
    + exists el. now rewrite guarded_set_src_empty.
    + pose proof (isDomainBlocked_string s) as Hb.
      destruct (existsb _ _) eqn:Hex.
      * exists el. now rewrite guarded_set_src_blocked.
      * eexists. rewrite (guarded_set_src_forwarded el s Hg Hs Hb).
        split; [reflexivity |]. split; [exact Hg |].
        apply sources_clean_native_setAttribute; [reflexivity | exact Hclean |].
        intros [_ [s' [Heq Hb']]]. injection Heq as <-. congruence.
  - destruct (drop_decision name (VStr s)) as [Hyes | Hno].
    + exists el. destruct Hyes as [Hn Hb].
      now rewrite (guarded_setAttribute_dropped el name (VStr s) Hg Hn Hb).
    + eexists. rewrite (guarded_setAttribute_passed el name (VStr s) Hg Hno).
      split; [reflexivity |]. split; [exact Hg |].
      now apply sources_clean_native_setAttribute.
Qed.

End ScriptMore.

(** X14. However page code sets the source of a guarded script element
    with strings, through [src] or through [setAttribute] with a
    lower-case attribute name, no operation throws and neither the [src]
    nor the [data-src] attribute ever holds a blocked string, provided
    they held none to begin with. *)
Theorem script_sources_stay_clean {render : ObjectToString}
    (el : Dom.element) (ops : list ScriptOps.script_op) :
  Dom.guarded el = true ->
  ScriptOps.sources_clean el ->
  Forall ScriptOps.lower_name ops ->
  exists el',
    ScriptOps.apply_ops el ops = Normal el' /\
    Dom.guarded el' = true /\
    ScriptOps.sources_clean el'.
Proof.
  intros Hg Hclean Hall. revert el Hg Hclean.
  induction Hall as [| op ops Hop Hall IH]; intros el Hg Hclean.
  - exists el. now split.
  - destruct (apply_op_keeps_clean el op Hg Hclean Hop) as [el1 [H1 [Hg1 Hc1]]].
    destruct (IH el1 Hg1 Hc1) as [el' [H' [Hg' Hc']]].
    exists el'. cbn [ScriptOps.apply_ops]. rewrite H1. now split.
Qed.

Lemma script_sources_stay_clean_witness :
  exists el',
    ScriptOps.apply_ops (render := plain_object_toString)
      (scriptBlocker.createElement "script")
      [ScriptOps.SetAttr "async" "";
       ScriptOps.SetSrc "https://connect.facebook.net/en_US/fbevents.js";
       ScriptOps.SetAttr "data-src" "https://static.hotjar.com/c/hotjar.js";
       ScriptOps.SetSrc "/js/app.js"]
    = Normal el' /\
    Dom.guarded el' = true /\
    ScriptOps.sources_clean el'.
Proof.
  apply (script_sources_stay_clean (render := plain_object_toString)
           (scriptBlocker.createElement "script")).
  - reflexivity.
  - intros name s _ H. vm_compute in H. discriminate.
  - repeat constructor.
Defined.

(** X15. The guard of [setAttribute] looks at the exact name and at the
    type of the value only: with the name in capitals, which the browser
    lower-cases, or with an object as the value, which the browser turns
    into a string, the call goes to the native [setAttribute] on every
    element, and [src] reads back the value, blocked or not. *)
Theorem setAttribute_guard_is_exact {render : ObjectToString}
    (el : Dom.element) (s : string) (r : positive) :
  (Element.setAttribute el "SRC" (VStr s)
   = Normal (Dom.native_setAttribute "SRC" (VStr s) el) /\
   scriptBlocker.get_src (Dom.native_setAttribute "SRC" (VStr s) el) = VStr s) /\
  (Element.setAttribute el "src" (VRef r)
   = Normal (Dom.native_setAttribute "src" (VRef r) el) /\
   scriptBlocker.get_src (Dom.native_setAttribute "src" (VRef r) el)
   = VStr (object_toString r)).
Proof.
  split; split.
  - unfold Element.setAttribute, scriptBlocker.setAttribute,
      scriptBlocker.drop_condition.
    destruct (Dom.guarded el); [| reflexivity].
    simpl. now destruct (negb (String.eqb s "")).
  - unfold scriptBlocker.get_src, Dom.getAttribute, Dom.native_setAttribute.
    simpl. now rewrite lookup_insert_eq.
  - unfold Element.setAttribute. now destruct (Dom.guarded el).
  - unfold scriptBlocker.get_src, Dom.getAttribute, Dom.native_setAttribute.
    simpl. now rewrite lookup_insert_eq.
Qed.



(** X17. Reading [src] back after setting it on a guarded element, in
    any state: a string that is not empty and not blocked is read back;
    the empty string and every blocked string leave the element as it
    was, so the previous source, if there was one, is still there. *)
Theorem src_read_back {render : ObjectToString} (el : Dom.element) (s : string) :
  Dom.guarded el = true ->
  exists el',
    Element.set_src el (VStr s) = Normal el' /\
    (s <> "" /\ isDomainBlocked (VStr s) = Normal false ->
     scriptBlocker.get_src el' = VStr s) /\
    (s = "" \/ isDomainBlocked (VStr s) = Normal true -> el' = el).
Proof.
  intros Hg. destruct (String.eqb_spec s "") as [-> | Hs].
  - exists el. rewrite (guarded_set_src_empty el Hg).
    split; [reflexivity |]. split; [intros [H _]; now destruct H | reflexivity].
  - pose proof (isDomainBlocked_string s) as Hb.
    destruct (existsb _ _) eqn:Hex.
    + exists el. rewrite (guarded_set_src_blocked el s Hg Hb).
      split; [reflexivity |]. split; [| reflexivity].
      intros [_ H]. congruence.
    + eexists. rewrite (guarded_set_src_forwarded el s Hg Hs Hb).
      split; [reflexivity |]. split.
      * intros _. apply getAttribute_native_setAttribute.
      * intros [H | H]; [contradiction | congruence].
Qed.

Lemma src_read_back_witness :
  exists el',
    Element.set_src (render := plain_object_toString)
      (scriptBlocker.createElement "script") (VStr "/js/app.js") = Normal el' /\
    ("/js/app.js" <> "" /\ isDomainBlocked (VStr "/js/app.js") = Normal false ->
     scriptBlocker.get_src el' = VStr "/js/app.js") /\
    ("/js/app.js" = "" \/ isDomainBlocked (VStr "/js/app.js") = Normal true ->
     el' = scriptBlocker.createElement "script").
Proof.
  apply (src_read_back (render := plain_object_toString)
           (scriptBlocker.createElement "script") "/js/app.js").
  reflexivity.
Defined.

(** ** Consent: the other choice, repeated choices, failures *)

Section ConsentMore.
Import Dom Consent.

Lemma has_id_set_style_display (id v : string) (el : element) :
  has_id id (set_style_display v el) = has_id id el.
Proof. reflexivity. Qed.

Lemma find_index_alter (f : element -> bool) (g : element -> element)
    (i : nat) (l : list element) :
  (forall el, f (g el) = f el) ->
  find_index f (alter g i l) = find_index f l.
Proof.
  intros Hfg. revert i. induction l as [|x l IH]; intros i; [reflexivity |].
  destruct i as [|i]; cbn.
  - now rewrite Hfg.
  - now rewrite IH.
Qed.

Lemma alter_twice (g : element -> element) (i : nat) (l : list element) :
  (forall el, g (g el) = g el) ->
  alter g i (alter g i l) = alter g i l.
Proof.
  intros Hg. revert i. induction l as [|x l IH]; intros i; [reflexivity |].
  destruct i as [|i]; cbn; [now rewrite Hg | now rewrite IH].
Qed.

Lemma getElementById_hidden (d : document) (r : node_ref) (id : string) :
  getElementById (update_node (set_style_display "none") r d) id
  = getElementById d id.
Proof.
  unfold getElementById. destruct r as [i | i]; simpl;
    now rewrite find_index_alter by apply has_id_set_style_display.
Qed.

Lemma update_node_hidden_twice (d : document) (r : node_ref) :
  update_node (set_style_display "none") r
    (update_node (set_style_display "none") r d)
  = update_node (set_style_display "none") r d.
Proof.
  destruct r as [i | i]; unfold update_node; simpl;
    now rewrite alter_twice by reflexivity.
Qed.

(** What [accept] does when the banner is found. *)
Lemma accept_found (choice : string) (pg : page) (r : node_ref) :
  getElementById (doc pg) "consent-banner" = Some r ->
  accept choice pg
  = (Normal (),
     {| doc := update_node (set_style_display "none") r (doc pg);
        localStorage := <["cookieConsent" := choice]> (localStorage pg) |}).
Proof. intros H. unfold accept. simpl. now rewrite H. Qed.

Lemma accept_Normal_found (choice : string) (pg pg1 : page) :
  accept choice pg = (Normal (), pg1) ->
  exists r, getElementById (doc pg) "consent-banner" = Some r.
Proof.
  unfold accept. simpl.
  destruct (getElementById (doc pg) "consent-banner") as [r|]; [| discriminate].
  intros _. now exists r.
Qed.

Lemma lookup_app_l_element (l : list element) (x : element) (i : nat) (el : element) :
  l !! i = Some el -> ((l ++ [x])%list : list element) !! i = Some el.
Proof.
  revert i. induction l as [|y l IH]; intros i H; [destruct i; discriminate |].
  destruct i as [|i]; [exact H | now apply IH].
Qed.

End ConsentMore.

(** X18. [acceptAllCookies] closes the flow like its sibling: on a page
    where the listener has just created the banner, it completes, stores
    "all" under [cookieConsent] and sets the banner's [display] to
    "none"; on any later load with that storage the listener creates
    nothing. *)
Theorem accept_all_flow (pg : Consent.page) :
  Consent.localStorage pg !! "cookieConsent" = None ->
  Dom.getElementById (Consent.doc pg) "consent-banner" = None ->
  let loaded := Consent.onDOMContentLoaded pg in
  let banner := Dom.InBody (List.length (Dom.body (Consent.doc pg))) in
  exists accepted,
    Consent.acceptAllCookies loaded = (Normal (), accepted) /\
    Consent.localStorage accepted !! "cookieConsent" = Some "all" /\
    Dom.node (Consent.doc accepted) banner
    = Some (Dom.set_style_display "none" Consent.consentBanner) /\
    forall d : Dom.document,
      Consent.onDOMContentLoaded (Consent.reload d accepted)
      = Consent.reload d accepted.
Proof.
  intros Hnone Hid loaded banner.
  assert (Hloaded : loaded = Consent.initConsentManagement pg).
  { subst loaded. unfold Consent.onDOMContentLoaded, Consent.getItem.
    now rewrite Hnone. }
  destruct (initConsentManagement_banner pg Hid) as [Hfind Hnode].
  rewrite <- Hloaded in Hfind, Hnode. fold banner in Hfind, Hnode.
  unfold Consent.acceptAllCookies. rewrite (accept_found "all" loaded banner Hfind).
  eexists. split; [reflexivity |]. split; [| split].
  - simpl. apply lookup_insert_eq.
  - rewrite Hloaded. subst banner. unfold Consent.initConsentManagement. simpl.
    rewrite alter_snoc. apply lookup_snoc.
  - intros d. apply (onDOMContentLoaded_stored _ "all"); [| discriminate].
    simpl. apply lookup_insert_eq.
Qed.

Lemma accept_all_flow_witness :
  exists accepted,
    Consent.acceptAllCookies (Consent.onDOMContentLoaded Consent.first_visit)
    = (Normal (), accepted) /\
    Consent.localStorage accepted !! "cookieConsent" = Some "all" /\
    Dom.node (Consent.doc accepted) (Dom.InBody 0)
    = Some (Dom.set_style_display "none" Consent.consentBanner) /\
    forall d : Dom.document,
      Consent.onDOMContentLoaded (Consent.reload d accepted)
      = Consent.reload d accepted.
Proof.
  apply (accept_all_flow Consent.first_visit); reflexivity.
Defined.

(** X19. The last choice wins: after one of the two buttons completed,
    pressing either button again completes too, the stored value is the
    new choice, and the document, with the banner hidden, is unchanged. *)
Theorem accept_again_changes_only_the_choice
    (first second : string) (pg pg1 : Consent.page) :
  Consent.accept first pg = (Normal (), pg1) ->
  exists pg2,
    Consent.accept second pg1 = (Normal (), pg2) /\
    Consent.localStorage pg2 !! "cookieConsent" = Some second /\
    Consent.doc pg2 = Consent.doc pg1 /\
    Consent.localStorage pg2
    = <["cookieConsent" := second]> (Consent.localStorage pg).
Proof.
  intros H1. destruct (accept_Normal_found first pg pg1 H1) as [r Hr].
  rewrite (accept_found first pg r Hr) in H1. injection H1 as <-.
  rewrite (accept_found second _ r); cbn [Consent.doc Consent.localStorage].
  - eexists. split; [reflexivity |]. cbn [Consent.doc Consent.localStorage].
    split; [apply lookup_insert_eq |]. split.
    + apply update_node_hidden_twice.
    + apply insert_insert_eq.
  - now rewrite getElementById_hidden.
Qed.

Lemma accept_again_changes_only_the_choice_witness :
  exists pg2,
    Consent.accept "all"
      (Consent.accept "essential"
         (Consent.onDOMContentLoaded Consent.first_visit)).2
    = (Normal (), pg2) /\
    Consent.localStorage pg2 !! "cookieConsent" = Some "all" /\
    Consent.doc pg2
    = Consent.doc (Consent.accept "essential"
                     (Consent.onDOMContentLoaded Consent.first_visit)).2 /\
    Consent.localStorage pg2
    = <["cookieConsent" := "all"]>
        (Consent.localStorage (Consent.onDOMContentLoaded Consent.first_visit)).
Proof.
  apply (accept_again_changes_only_the_choice "essential" "all"
           (Consent.onDOMContentLoaded Consent.first_visit)).
  reflexivity.
Defined.

(** X20. When no element is under the banner's id, a consent function
    throws a [TypeError], but only after it has stored the choice: the
    document is untouched, the choice is in [localStorage], and, the
    choice not being empty, no later load shows the banner. *)
Theorem accept_without_banner_stores_then_throws
    (choice : string) (pg : Consent.page) :
  Dom.getElementById (Consent.doc pg) "consent-banner" = None ->
  choice <> "" ->
  exists pg1,
    Consent.accept choice pg
    = (Abrupt (VError "TypeError" "Cannot read properties of null (reading 'style')"),
       pg1) /\
    Consent.doc pg1 = Consent.doc pg /\
    Consent.localStorage pg1 !! "cookieConsent" = Some choice /\
    forall d : Dom.document,
      Consent.onDOMContentLoaded (Consent.reload d pg1) = Consent.reload d pg1.
Proof.
  intros Hnone Hne. unfold Consent.accept. simpl. rewrite Hnone.
  eexists. split; [reflexivity |]. split; [reflexivity |].
  split; [apply lookup_insert_eq |].
  intros d. apply (onDOMContentLoaded_stored _ choice); [| exact Hne].
  simpl. apply lookup_insert_eq.
Qed.

Lemma accept_without_banner_stores_then_throws_witness :
  exists pg1,
    Consent.accept "all" Consent.first_visit
    = (Abrupt (VError "TypeError" "Cannot read properties of null (reading 'style')"),
       pg1) /\
    Consent.doc pg1 = Consent.doc Consent.first_visit /\
    Consent.localStorage pg1 !! "cookieConsent" = Some "all" /\
    forall d : Dom.document,
      Consent.onDOMContentLoaded (Consent.reload d pg1) = Consent.reload d pg1.
Proof.
  apply (accept_without_banner_stores_then_throws "all" Consent.first_visit).
  - reflexivity.
  - discriminate.
Defined.

(** X21. The listener treats an empty stored value as no consent: the
    banner is built exactly when [cookieConsent] is absent or the empty
    string, and the page is left alone for every other stored value. *)
Theorem onDOMContentLoaded_cases (pg : Consent.page) :
  (Consent.localStorage pg !! "cookieConsent" = None \/
   Consent.localStorage pg !! "cookieConsent" = Some "" ->
   Consent.onDOMContentLoaded pg = Consent.initConsentManagement pg) /\
  (forall choice,
     Consent.localStorage pg !! "cookieConsent" = Some choice -> choice <> "" ->
     Consent.onDOMContentLoaded pg = pg) /\
  Consent.initConsentManagement pg <> pg.
Proof.
  split; [| split].
  - unfold Consent.onDOMContentLoaded, Consent.getItem.
    intros [-> | ->]; reflexivity.
  - intros choice. apply onDOMContentLoaded_stored.
  - intros H. apply (f_equal (fun p => List.length (Dom.body (Consent.doc p)))) in H.
    simpl in H. rewrite length_app in H. simpl in H. lia.
Qed.

(** X22. Building the banner only adds: every node of the document is
    found under the same reference afterwards, the head gains the style
    element and the body the banner, each as its last child, and
    [localStorage] is not written. *)
Theorem initConsentManagement_only_appends (pg : Consent.page) :
  (forall r el, Dom.node (Consent.doc pg) r = Some el ->
     Dom.node (Consent.doc (Consent.initConsentManagement pg)) r = Some el) /\
  Dom.head (Consent.doc (Consent.initConsentManagement pg))
  = (Dom.head (Consent.doc pg) ++ [Consent.styles])%list /\
  Dom.body (Consent.doc (Consent.initConsentManagement pg))
  = (Dom.body (Consent.doc pg) ++ [Consent.consentBanner])%list /\
  Consent.localStorage (Consent.initConsentManagement pg) = Consent.localStorage pg.
Proof.
  split; [| repeat split].
  intros [i | i] el H; simpl in *; now apply lookup_app_l_element.
Qed.

(** ** The resource error listener *)

(** X23. With the script's configuration the error listener never
    touches the console and decides as follows: an event whose target
    has no tag name, or neither [src] nor [href], is left alone; when
    [src || href] is a string, the default action is prevented exactly
    when the classifier blocks that string; and when it is any other
    truthy value the listener throws the classifier's [TypeError]. *)
Theorem onError_decides_by_classifier
    (console_debug : consoleManager.sink) (e : errorSuppressor.error_event) :
  let url := errorSuppressor.or_else (errorSuppressor.target_src e)
               (errorSuppressor.target_href e) in
  (toBoolean (errorSuppressor.target_tagName e) = false \/ toBoolean url = false ->
   errorSuppressor.onError protectionConfig console_debug e = Ret e) /\
  (toBoolean (errorSuppressor.target_tagName e) = true ->
   forall s, url = VStr s ->
     exists blocked : bool,
       isDomainBlocked (VStr s) = Normal blocked /\
       errorSuppressor.onError protectionConfig console_debug e
       = Ret (if blocked then errorSuppressor.preventDefault e else e)) /\
  (toBoolean (errorSuppressor.target_tagName e) = true ->
   toBoolean url = true -> is_string url = false ->
   errorSuppressor.onError protectionConfig console_debug e
   = Throw (VError "TypeError" "url.toLowerCase is not a function")).
Proof.
  intros url. subst url. unfold errorSuppressor.onError. split; [| split].
  - intros [Htag | Hurl].
    + now rewrite Htag.
    + destruct (toBoolean (errorSuppressor.target_tagName e)); [| reflexivity].
      cbv zeta. unfold errorSuppressor.url_condition. now rewrite Hurl.
  - intros Htag s Hs. rewrite Htag, Hs. cbv zeta.
    exists (existsb (domain_matches (toLowerCase s)) blockedDomains).
    split; [apply isDomainBlocked_string |].
    unfold errorSuppressor.url_condition.
    destruct (toBoolean (VStr s)) eqn:Ht.
    + rewrite isDomainBlocked_string.
      now destruct (existsb (domain_matches (toLowerCase s)) blockedDomains).
    + simpl in Ht. apply negb_false_iff, String.eqb_eq in Ht. subst s. reflexivity.
  - intros Htag Ht Hs. rewrite Htag. cbv zeta.
    unfold errorSuppressor.url_condition. rewrite Ht.
    now rewrite (isDomainBlocked_truthy_non_string _ Ht Hs).
Qed.

(** X24. [src] shadows [href]: when the target has a tag name and a
    [src] that is a string, not empty and not blocked, the listener
    leaves the event alone whatever [href] is and whatever the
    configuration, even if [href] is blocked. *)
Theorem onError_src_shadows_href
    (config : protection_config) (console_debug : consoleManager.sink)
    (e : errorSuppressor.error_event) (s : string) :
  toBoolean (errorSuppressor.target_tagName e) = true ->
  errorSuppressor.target_src e = VStr s ->
  s <> "" ->
  isDomainBlocked (VStr s) = Normal false ->
  errorSuppressor.onError config console_debug e = Ret e.
Proof.
  intros Htag Hsrc Hs Hb. unfold errorSuppressor.onError, errorSuppressor.or_else,
    errorSuppressor.url_condition.
  assert (Ht : toBoolean (VStr s) = true).
  { simpl. now rewrite (proj2 (String.eqb_neq _ _) Hs). }
  rewrite Htag, Hsrc, !Ht, Hb. reflexivity.
Qed.

Lemma onError_src_shadows_href_witness :
  errorSuppressor.onError protectionConfig
    (consoleManager.debug consoleManager.native_console)
    {| errorSuppressor.target_tagName := VStr "LINK";
       errorSuppressor.target_src := VStr "/assets/site.css";
       errorSuppressor.target_href := VStr "https://www.google-analytics.com/x.css";
       errorSuppressor.defaultPrevented := false |}
  = Ret {| errorSuppressor.target_tagName := VStr "LINK";
           errorSuppressor.target_src := VStr "/assets/site.css";
           errorSuppressor.target_href := VStr "https://www.google-analytics.com/x.css";
           errorSuppressor.defaultPrevented := false |}.
Proof.
  apply (onError_src_shadows_href protectionConfig _ _ "/assets/site.css").
  - reflexivity.
  - reflexivity.
  - discriminate.
  - reflexivity.
Defined.

Example onError_blocked_script :
  errorSuppressor.onError protectionConfig
    (consoleManager.debug consoleManager.native_console)
    {| errorSuppressor.target_tagName := VStr "SCRIPT";
       errorSuppressor.target_src := VStr "https://static.hotjar.com/c/hotjar.js";
       errorSuppressor.target_href := VUndefined;
       errorSuppressor.defaultPrevented := false |}
  = Ret {| errorSuppressor.target_tagName := VStr "SCRIPT";
           errorSuppressor.target_src := VStr "https://static.hotjar.com/c/hotjar.js";
           errorSuppressor.target_href := VUndefined;
           errorSuppressor.defaultPrevented := true |}.
Proof. reflexivity. Qed.

(** ** Starting the protection *)

Section ProtectionInit.
Import protection.
Context {render : ObjectToString}.

Lemma setupStubs_refused (w : Window.global_object) (key : string) :
  In key (map fst trackingStubs) ->
  refuses_stub w key = true ->
  exists e w', setupStubs w = (Abrupt e, w').
Proof.
  intros Hin Href.
  pose proof (forEach_setupStub_completes_iff trackingStubs w
                trackingStubs_keys_NoDup trackingStubs_truthy) as Hiff.
  fold (setupStubs w) in Hiff.
  destruct (setupStubs w) as [[[]|e] w'] eqn:Hs.
  - exfalso. simpl in Hiff. rewrite (proj1 Hiff eq_refl key Hin) in Href.
    discriminate.
  - now exists e, w'.
Qed.

End ProtectionInit.

(** X25. One refused stub keeps the whole protection from starting:
    when the global object refuses a stub of the table, [init] ends with
    the error of [setupStubs] after patching the console, and [fetch],
    [XMLHttpRequest], [createElement] and the error listeners are what
    they were, so nothing is intercepted. *)
Theorem init_stops_at_refused_stub {render : ObjectToString}
    (b : protection.browser) (key : string) :
  In key (map fst trackingStubs) ->
  refuses_stub (protection.window b) key = true ->
  exists e b',
    protection.init protectionConfig b = Ret (Abrupt e, b') /\
    (setupStubs (protection.window b)).1 = Abrupt e /\
    protection.console b'
    = consoleManager.init protectionConfig (protection.console b) (protection.console b) /\
    protection.requests b' = protection.requests b /\
    protection.createElement b' = protection.createElement b /\
    protection.capturing_error_listeners b' = protection.capturing_error_listeners b /\
    protection.console_cleared b' = protection.console_cleared b.
Proof.
  intros Hin Href. destruct (setupStubs_refused _ key Hin Href) as [e [w' Hs]].
  unfold protection.init. rewrite Hs. cbv zeta.
  eexists. eexists. split; [reflexivity |]. repeat split.
Qed.

Lemma init_stops_at_refused_stub_witness :
  exists e b',
    protection.init (render := plain_object_toString) protectionConfig
      (protection.native_browser (Window.window_of [("fbq", Window.locked (VNum 0))]))
    = Ret (Abrupt e, b') /\
    (setupStubs (protection.window
       (protection.native_browser
          (Window.window_of [("fbq", Window.locked (VNum 0))])))).1 = Abrupt e /\
    protection.console b'
    = consoleManager.init (render := plain_object_toString) protectionConfig
        (protection.console
           (protection.native_browser
              (Window.window_of [("fbq", Window.locked (VNum 0))])))
        (protection.console
           (protection.native_browser
              (Window.window_of [("fbq", Window.locked (VNum 0))]))) /\
    protection.requests b'
    = protection.requests
        (protection.native_browser (Window.window_of [("fbq", Window.locked (VNum 0))])) /\
    protection.createElement b'
    = protection.createElement
        (protection.native_browser (Window.window_of [("fbq", Window.locked (VNum 0))])) /\
    protection.capturing_error_listeners b'
    = protection.capturing_error_listeners
        (protection.native_browser (Window.window_of [("fbq", Window.locked (VNum 0))])) /\
    protection.console_cleared b'
    = protection.console_cleared
        (protection.native_browser (Window.window_of [("fbq", Window.locked (VNum 0))])).
Proof.
  apply (init_stops_at_refused_stub (render := plain_object_toString)
           (protection.native_browser
              (Window.window_of [("fbq", Window.locked (VNum 0))])) "fbq").
  - vm_compute. tauto.
  - vm_compute. reflexivity.
Defined.

(** X26. When the global object refuses no stub, [init] on the native
    browser completes without a native call and installs what the
    components describe: the console with [error] and [warn] filtered,
    every stub name truthy, the [fetch] and [XMLHttpRequest] wrappers of
    the interceptor, the guarded [createElement], one more capturing
    error listener, and a cleared console. *)
Theorem init_installs_everything {render : ObjectToString}
    (w : Window.global_object) :
  (forall key, In key (map fst trackingStubs) -> refuses_stub w key = false) ->
  exists b',
    protection.init protectionConfig (protection.native_browser w)
    = Ret (Normal (), b') /\
    protection.console b' = consoleManager.installed consoleManager.native_console /\
    protection.window b' = (setupStubs w).2 /\
    Forall (fun entry => toBoolean (Window.get (protection.window b') entry.1) = true)
           trackingStubs /\
    networkInstall.api_fetch (protection.requests b') = networkInterceptor.fetch /\
    networkInstall.api_XMLHttpRequest (protection.requests b')
    = networkInterceptor.XMLHttpRequest /\
    protection.createElement b' = scriptBlocker.createElement /\
    List.length (protection.capturing_error_listeners b') = 1 /\
    protection.console_cleared b' = true.
Proof.
  intros Hok.
  pose proof (proj2 (forEach_setupStub_completes_iff trackingStubs w
                       trackingStubs_keys_NoDup trackingStubs_truthy) Hok) as Hrun.
  fold (setupStubs w) in Hrun.
  unfold protection.init. cbv zeta.
  change (protection.window (protection.native_browser w)) with w.
  destruct (setupStubs w) as [[[]|e] w'] eqn:Hs; [| discriminate].
  eexists. split; [reflexivity |]. cbn [protection.console protection.window
    protection.requests protection.createElement
    protection.capturing_error_listeners protection.console_cleared snd].
  split; [reflexivity |]. split; [reflexivity |].
  split.
  { unfold setupStubs in Hs.
    exact (proj2 (forEach_setupStub_all_truthy _ _ _ trackingStubs_truthy Hs)). }
  repeat split.
Qed.

Lemma init_installs_everything_witness :
  exists b',
    protection.init (render := plain_object_toString) protectionConfig
      (protection.native_browser (Window.window_of []))
    = Ret (Normal (), b') /\
    protection.console b'
    = consoleManager.installed (render := plain_object_toString)
        consoleManager.native_console /\
    protection.window b' = (setupStubs (Window.window_of [])).2 /\
    Forall (fun entry => toBoolean (Window.get (protection.window b') entry.1) = true)
           trackingStubs /\
    networkInstall.api_fetch (protection.requests b') = networkInterceptor.fetch /\
    networkInstall.api_XMLHttpRequest (protection.requests b')
    = networkInterceptor.XMLHttpRequest /\
    protection.createElement b' = scriptBlocker.createElement /\
    List.length (protection.capturing_error_listeners b') = 1 /\
    protection.console_cleared b' = true.
Proof.
  apply (init_installs_everything (render := plain_object_toString)
           (Window.window_of [])).
  intros key Hin. vm_compute in Hin.
  repeat (destruct Hin as [<- | Hin]; [vm_compute; reflexivity |]).
  destruct Hin.
Defined.
